(** * A shallow embedding of the core of src/midiSynth.js

    The browser script keeps its state in module-level variables
    ([audioContext], [masterGainNode], [masterFilter], [midiPorts],
    [pressedKeys]) and in the objects of the Web Audio and Web MIDI APIs.
    Here that state is one record, [Session], threaded explicitly through
    every handler.  Numbers that the code only compares (status and data
    bytes, note numbers) are integers [Z]; the values it computes with
    [Math.pow], [Math.log] and division (frequencies, gains) are reals [R].
    Audio nodes live in one node store indexed by [nat] handles, the way
    JavaScript object references alias: a handle stored in [pressedKeys]
    and the node it points to in the store are the same object. *)

From Stdlib Require Import List String ZArith Reals Lia Lra Bool.
Import ListNotations.

Open Scope Z_scope.

(** ** JavaScript plain objects used as maps

    [pressedKeys] (keyed by note number) and [midiPorts] (keyed by port
    name) are plain JS objects.  [o[k] = v] updates the existing property in
    place or adds a new one; [delete o[k]] removes it; reading a missing
    property gives [undefined], here [None]. *)
Module JsObj.
Section JsObj.
Variables (K V : Type).
Variable key_eqb : K -> K -> bool.

Definition t := list (K * V).

Fixpoint get (o : t) (k : K) : option V :=
  match o with
  | [] => None
  | (k', v) :: o' => if key_eqb k k' then Some v else get o' k
  end.

Fixpoint set (o : t) (k : K) (v : V) : t :=
  match o with
  | [] => [(k, v)]
  | (k', v') :: o' =>
      if key_eqb k k' then (k', v) :: o' else (k', v') :: set o' k v
  end.

Fixpoint delete (o : t) (k : K) : t :=
  match o with
  | [] => []
  | (k', v') :: o' => if key_eqb k k' then delete o' k else (k', v') :: delete o' k
  end.

(** The properties of [o] whose key is [k]. *)
Definition entries (o : t) (k : K) : t :=
  filter (fun kv => key_eqb k (fst kv)) o.
End JsObj.
End JsObj.

Arguments JsObj.get {K V} key_eqb o k.
Arguments JsObj.set {K V} key_eqb o k v.
Arguments JsObj.delete {K V} key_eqb o k.
Arguments JsObj.entries {K V} key_eqb o k.

(** ** The Web Audio node store

    Nodes carry the attributes the code reads or writes.  A node is
    created with the defaults of the Web Audio API: an [OscillatorNode] is
    a ["sine"] at 440 Hz, a [GainNode] has gain 1, a [BiquadFilterNode] is
    a ["lowpass"] at 350 Hz with Q 1. *)
Inductive AudioNode :=
  | OscNode (osc_type : string) (frequency : R)
  | GainNode (gain : R)
  | BiquadNode (filter_type : string) (frequency : R) (q : R)
  | DestinationNode.

(** What the audio engine is commanded to do with a source node. *)
Inductive AudioCmd :=
  | StartCmd (osc : nat)
  | StopCmd (osc : nat).

Record Engine := mkEngine {
  next_node : nat;
  nodes : list (nat * AudioNode);
  edges : list (nat * nat);      (* [a.connect(b)] *)
  commands : list AudioCmd        (* [osc.start()], [osc.stop()] in order *)
}.

Definition empty_engine : Engine := mkEngine 0 [] [] [].

Definition node_at (e : Engine) (id : nat) : option AudioNode :=
  JsObj.get Nat.eqb (nodes e) id.

(** Allocates a node and returns its handle. *)
Definition alloc (e : Engine) (n : AudioNode) : Engine * nat :=
  (mkEngine (S (next_node e)) (nodes e ++ [(next_node e, n)]) (edges e) (commands e),
   next_node e).

Definition update_node (e : Engine) (id : nat) (n : AudioNode) : Engine :=
  mkEngine (next_node e) (JsObj.set Nat.eqb (nodes e) id n) (edges e) (commands e).

Definition connect (e : Engine) (a b : nat) : Engine :=
  mkEngine (next_node e) (nodes e) (edges e ++ [(a, b)]) (commands e).

Definition issue (e : Engine) (c : AudioCmd) : Engine :=
  mkEngine (next_node e) (nodes e) (edges e) (commands e ++ [c]).

(** [node.gain.value = v] on a gain node. *)
Definition set_gain_value (e : Engine) (id : nat) (v : R) : Engine :=
  match node_at e id with
  | Some (GainNode _) => update_node e id (GainNode v)
  | _ => e
  end.

(** [node.frequency.value = f] on an oscillator or a filter. *)
Definition set_frequency_value (e : Engine) (id : nat) (f : R) : Engine :=
  match node_at e id with
  | Some (OscNode ty _) => update_node e id (OscNode ty f)
  | Some (BiquadNode ty _ q) => update_node e id (BiquadNode ty f q)
  | _ => e
  end.

(** [filter.Q.value = q]. *)
Definition set_q_value (e : Engine) (id : nat) (q : R) : Engine :=
  match node_at e id with
  | Some (BiquadNode ty f _) => update_node e id (BiquadNode ty f q)
  | _ => e
  end.

(** [osc.type = ty] / [filter.type = ty]. *)
Definition set_type (e : Engine) (id : nat) (ty : string) : Engine :=
  match node_at e id with
  | Some (OscNode _ f) => update_node e id (OscNode ty f)
  | Some (BiquadNode _ f q) => update_node e id (BiquadNode ty f q)
  | _ => e
  end.

(** [filter.frequency = x] and [filter.Q = x]: [frequency] and [Q] are
    [readonly attribute AudioParam] in the Web Audio IDL, so in a classic
    (non-strict) script the assignment is silently dropped and the node is
    not changed. *)
Definition assign_readonly_attribute (e : Engine) (id : nat) (x : R) : Engine := e.

(** ** Web MIDI ports and event listeners *)
Record MIDIPort := mkPort {
  port_id : nat;          (* object identity of the [MIDIInput] *)
  name : string;
  type : string;          (* ["input"] or ["output"] *)
}.

(** The two callbacks the script registers. *)
Inductive Handler := OnStateChange | OnMidiMessage.

Definition handler_eqb (a b : Handler) : bool :=
  match a, b with
  | OnStateChange, OnStateChange | OnMidiMessage, OnMidiMessage => true
  | _, _ => false
  end.

(** A registered listener: target object, event type, callback. *)
Definition Listener := (nat * string * Handler)%type.

Definition listener_eqb (a b : Listener) : bool :=
  match a, b with
  | (t, ty, h), (t', ty', h') =>
      Nat.eqb t t' && String.eqb ty ty' && handler_eqb h h'
  end.

(** [target.addEventListener(ty, h)]: the DOM ignores a listener that is
    already registered with the same type and callback. *)
Definition addEventListener (ls : list Listener) (l : Listener) : list Listener :=
  if existsb (listener_eqb l) ls then ls else ls ++ [l].

(** [target.removeEventListener(ty, h)]. *)
Definition removeEventListener (ls : list Listener) (l : Listener) : list Listener :=
  filter (fun l' => negb (listener_eqb l l')) ls.

(** ** The session: the script's module-level state *)
Record Session := mkSession {
  audioContext : option nat;     (* the context, by its destination node *)
  masterGainNode : option nat;
  masterFilter : option nat;
  midiPorts : JsObj.t string MIDIPort;
  pressedKeys : JsObj.t Z nat;   (* note number -> oscillator *)
  engine : Engine;
  listeners : list Listener
}.

(** State at page load: every [let] is [undefined], both objects empty. *)
Definition init : Session := mkSession None None None [] [] empty_engine [].

Definition with_engine (s : Session) (e : Engine) : Session :=
  mkSession (audioContext s) (masterGainNode s) (masterFilter s)
    (midiPorts s) (pressedKeys s) e (listeners s).

Definition with_pressedKeys (s : Session) (k : JsObj.t Z nat) : Session :=
  mkSession (audioContext s) (masterGainNode s) (masterFilter s)
    (midiPorts s) k (engine s) (listeners s).

Definition with_ports (s : Session) (p : JsObj.t string MIDIPort)
    (ls : list Listener) : Session :=
  mkSession (audioContext s) (masterGainNode s) (masterFilter s)
    p (pressedKeys s) (engine s) ls.

(** A handler either runs to completion or throws (a [TypeError] of the
    browser), keeping the mutations made before the throw. *)
Inductive Outcome :=
  | Done (s : Session)
  | Threw (s : Session) (error : string).

Definition andThen (o : Outcome) (f : Session -> Outcome) : Outcome :=
  match o with
  | Done s => f s
  | Threw s err => Threw s err
  end.

(** ** Parameter mappers (lines 115-130) *)
Definition isNoteOn (statusByte : Z) : bool :=
  (144 <=? statusByte) && (statusByte <=? 159).

Definition isNoteOff (statusByte : Z) : bool :=
  (128 <=? statusByte) && (statusByte <=? 143).

(** [Math.pow(2, (note - 69) / 12) * 440] *)
Definition midiNoteToFreq (note : Z) : R :=
  (Rpower 2 ((IZR note - 69) / 12) * 440)%R.

(** [Math.log(Math.pow(10, velocity)) / 292.4283068102438] *)
Definition midiVelocityToGain (velocity : Z) : R :=
  (ln (Rpower 10 (IZR velocity)) / 292.4283068102438)%R.

(** ** Web Audio (lines 135-210) *)

(** [createAudio]; [has_ctor] tells whether [window.AudioContext] or
    [window.webkitAudioContext] exists. *)
Definition createFilter (e : Engine) : Engine * nat :=
  let '(e, filter) := alloc e (BiquadNode "lowpass" 350 1) in
  let e := set_type e filter "lowpass" in
  let e := assign_readonly_attribute e filter 1000 in   (* filter.frequency = 1000 *)
  let e := assign_readonly_attribute e filter 8 in      (* filter.Q = 8 *)
  (e, filter).

Definition createAudio (has_ctor : bool) (s : Session) : Session :=
  if negb has_ctor then s else
  let '(e, dest) := alloc (engine s) DestinationNode in   (* new ACtx() *)
  let '(e, gain) := alloc e (GainNode 1) in               (* createGain() *)
  let e := set_gain_value e gain 0.5 in
  let '(e, filter) := createFilter e in
  let e := connect e gain filter in
  let e := connect e filter dest in
  mkSession (Some dest) (Some gain) (Some filter)
    (midiPorts s) (pressedKeys s) e (listeners s).

Definition createOscillator (e : Engine) (frequency : R) : Engine * nat :=
  let '(e, osc) := alloc e (OscNode "sine" 440) in
  let e := set_type e osc "square" in
  let e := set_frequency_value e osc frequency in
  (e, osc).

(** [createGain]: [gainNode.connect(masterGainNode)] throws when
    [masterGainNode] is [undefined]. *)
Definition createGain (s : Session) (value : R) : Engine * nat + string :=
  let '(e, gainNode) := alloc (engine s) (GainNode 1) in
  match masterGainNode s with
  | None => inr "TypeError: connect(undefined)"%string
  | Some m =>
      let e := connect e gainNode m in
      inl (set_gain_value e gainNode value, gainNode)
  end.

Definition playNote (s : Session) (note velocity : Z) : Outcome :=
  match audioContext s with
  | None => Done s
  | Some _ =>
      let freq := midiNoteToFreq note in
      let '(e, osc) := createOscillator (engine s) freq in
      let s := with_engine s e in
      let gainVal := midiVelocityToGain velocity in
      match createGain s gainVal with
      | inr err => Threw s err
      | inl (e, gainNode) =>
          let e := connect e osc gainNode in
          let s := with_engine s e in
          let s := with_pressedKeys s (JsObj.set Z.eqb (pressedKeys s) note osc) in
          Done (with_engine s (issue (engine s) (StartCmd osc)))
      end
  end.

Definition stopNote (s : Session) (note : Z) : Outcome :=
  match JsObj.get Z.eqb (pressedKeys s) note with
  | None => Done s
  | Some osc =>
      let s := with_engine s (issue (engine s) (StopCmd osc)) in
      Done (with_pressedKeys s (JsObj.delete Z.eqb (pressedKeys s) note))
  end.

Definition setMasterGain (s : Session) (value : R) : Outcome :=
  match masterGainNode s with
  | Some m => Done (with_engine s (set_gain_value (engine s) m value))
  | None => Done s
  end.

Definition setMasterFilterFreq (s : Session) (data : Z) : Outcome :=
  match masterFilter s with
  | Some f => Done (with_engine s (set_frequency_value (engine s) f ((IZR data / 64) * 1000)%R))
  | None => Done s
  end.

(** [onMidiMessage] (lines 82-113) on a 3-byte message; the four [if]s are
    evaluated one after the other, as in the source. *)
Definition onMidiMessage (s : Session) (statusByte data1 data2 : Z) : Outcome :=
  andThen (if isNoteOn statusByte then playNote s data1 data2 else Done s) (fun s =>
  andThen (if isNoteOff statusByte then stopNote s data1 else Done s) (fun s =>
  andThen (if statusByte =? 176 then
             if data1 =? 1 then Done s
             else if data1 =? 7 then setMasterGain s (IZR data2 / 127)%R
             else Done s
           else Done s) (fun s =>
  if statusByte =? 224 then setMasterFilterFreq s data2 else Done s))).

(** ** Web MIDI (lines 46-80) *)
(** [midiPorts] is a plain object literal, so [midiPorts[k]] also finds the
    properties every object inherits from [Object.prototype] when [midiPorts]
    has no own property [k]; all of them (functions, and [Object.prototype]
    itself for [__proto__]) are truthy. *)
Definition object_prototype_keys : list string :=
  ["constructor"; "__defineGetter__"; "__defineSetter__"; "hasOwnProperty";
   "__lookupGetter__"; "__lookupSetter__"; "isPrototypeOf"; "propertyIsEnumerable";
   "toString"; "valueOf"; "__proto__"; "toLocaleString"]%string.

Definition inherited_key (k : string) : bool :=
  existsb (String.eqb k) object_prototype_keys.

(** Truthiness of [midiPorts[k]]: an own entry holds a [MIDIPort] object. *)
Definition port_truthy (o : JsObj.t string MIDIPort) (k : string) : bool :=
  match JsObj.get String.eqb o k with
  | Some _ => true
  | None => inherited_key k
  end.

Definition enableMidiInput (s : Session) (input : MIDIPort) : Session :=
  if port_truthy (midiPorts s) (name input) then s
  else
    let ls := addEventListener (listeners s) (port_id input, "statechange"%string, OnStateChange) in
    let ls := addEventListener ls (port_id input, "midimessage"%string, OnMidiMessage) in
    with_ports s (JsObj.set String.eqb (midiPorts s) (name input) input) ls.

(** [delete midiPorts[k]] removes an own property only. *)
Definition disableMidiInput (s : Session) (input : MIDIPort) : Session :=
  if negb (port_truthy (midiPorts s) (name input)) then s
  else
    let ls := removeEventListener (listeners s) (port_id input, "statechange"%string, OnStateChange) in
    let ls := removeEventListener ls (port_id input, "midimessage"%string, OnMidiMessage) in
    with_ports s (JsObj.delete String.eqb (midiPorts s) (name input)) ls.

Definition onStateChange (s : Session) (port : MIDIPort) (state : string) : Session :=
  if String.eqb (type port) "input" then
    if String.eqb state "connected" then enableMidiInput s port
    else if String.eqb state "disconnected" then disableMidiInput s port
    else s
  else s.

(** [createFilter] of the class-based rewrite (src/unnamed/part_000, lines
    620-626), which writes the [AudioParam]s through [.value]. *)
Definition createFilter_class (e : Engine) : Engine * nat :=
  let '(e, filter) := alloc e (BiquadNode "lowpass" 350 1) in
  let e := set_type e filter "lowpass" in
  let e := set_frequency_value e filter 1000 in
  let e := set_q_value e filter 8 in
  (e, filter).

(** ** The event loop

    Every callback the page can receive, each run to completion.  A thrown
    error is reported by the browser and the next callback sees the state
    as the throw left it. *)
Inductive Event :=
  | StartClick (has_ctor : bool)              (* onStartBtnClick *)
  | SetupMidi (inputs : list MIDIPort)        (* access.inputs.forEach(enableMidiInput) *)
  | StateChange (port : MIDIPort) (state : string)
  | MidiMessage (statusByte data1 data2 : Z).

Definition outcome_state (o : Outcome) : Session :=
  match o with Done s => s | Threw s _ => s end.

Definition step (s : Session) (ev : Event) : Session :=
  match ev with
  | StartClick has_ctor => createAudio has_ctor s
  | SetupMidi inputs => fold_left enableMidiInput inputs s
  | StateChange port state => onStateChange s port state
  | MidiMessage sb d1 d2 => outcome_state (onMidiMessage s sb d1 d2)
  end.

Definition run (s : Session) (evs : list Event) : Session := fold_left step evs s.

(** ** The decoded view of a message (spec section 4.1)

    The source has no separate decoder: [onMidiMessage] tests the status
    byte with [isNoteOn], [isNoteOff], [=== 176] and [=== 224].  [decode]
    names which of those tests a message passes. *)
Inductive MidiEvent :=
  | NoteOn (note velocity : Z)
  | NoteOff (note : Z)
  | ControlChange (controller value : Z)
  | PitchBend (value : Z)
  | Other.

Definition decode (statusByte data1 data2 : Z) : MidiEvent :=
  if isNoteOn statusByte then NoteOn data1 data2
  else if isNoteOff statusByte then NoteOff data1
  else if statusByte =? 176 then ControlChange data1 data2
  else if statusByte =? 224 then PitchBend data2
  else Other.

(** The action [onMidiMessage] takes for each decoded event. *)
Definition handleEvent (s : Session) (ev : MidiEvent) : Outcome :=
  match ev with
  | NoteOn note velocity => playNote s note velocity
  | NoteOff note => stopNote s note
  | ControlChange controller value =>
      if controller =? 1 then Done s
      else if controller =? 7 then setMasterGain s (IZR value / 127)%R
      else Done s
  | PitchBend value => setMasterFilterFreq s value
  | Other => Done s
  end.

(** How many of the source's four status tests a status byte passes. *)
Definition guards_passed (statusByte : Z) : nat :=
  List.length (filter (fun b => b)
    [isNoteOn statusByte; isNoteOff statusByte; statusByte =? 176; statusByte =? 224]).

(** The classification of spec section 4.1, written from its words, to be
    compared with [decode]. *)
Definition decode_by_ranges (statusByte data1 data2 : Z) : MidiEvent :=
  if (144 <=? statusByte) && (statusByte <=? 159) then NoteOn data1 data2
  else if (128 <=? statusByte) && (statusByte <=? 143) then NoteOff data1
  else if statusByte =? 176 then ControlChange data1 data2
  else if statusByte =? 224 then PitchBend data2
  else Other.

(** How many times listener [l] is registered: the number of deliveries of
    one event to it. *)
Definition count_listener (ls : list Listener) (l : Listener) : nat :=
  List.length (filter (listener_eqb l) ls).

(** [onMidiMessage] of the first rewrite and of the class-based rewrite
    (src/unnamed/part_000, lines 86-114 and 550-578): the same tests
    chained with [else if]. *)
Definition onMidiMessage_elseif (s : Session) (statusByte data1 data2 : Z) : Outcome :=
  if isNoteOn statusByte then playNote s data1 data2
  else if isNoteOff statusByte then stopNote s data1
  else if statusByte =? 176 then
    if data1 =? 1 then Done s
    else if data1 =? 7 then setMasterGain s (IZR data2 / 127)%R
    else Done s
  else if statusByte =? 224 then setMasterFilterFreq s data2
  else Done s.

(** [enableMidiInput] of the third rewrite (src/unnamed/part_000, lines
    288-292): no [midiPorts] guard, the listeners are added each time. *)
Definition enableMidiInput_unguarded (s : Session) (input : MIDIPort) : Session :=
  let ls := addEventListener (listeners s) (port_id input, "statechange"%string, OnStateChange) in
  let ls := addEventListener ls (port_id input, "midimessage"%string, OnMidiMessage) in
  with_ports s (midiPorts s) ls.

(** * Facts *)

(** ** Plain objects as maps *)
Module JsObjFacts.
Section Facts.
Variables (K V : Type).
Variable key_eqb : K -> K -> bool.
Hypothesis key_eqb_spec : forall a b, key_eqb a b = true <-> a = b.

Lemma key_eqb_refl k : key_eqb k k = true.
Proof. now apply key_eqb_spec. Qed.

Lemma key_eqb_neq a b : a <> b -> key_eqb a b = false.
Proof.
  intro Hne. destruct (key_eqb a b) eqn:E; [|reflexivity].
  now apply key_eqb_spec in E.
Qed.

Lemma get_in (o : JsObj.t K V) k v : JsObj.get key_eqb o k = Some v -> In k (map fst o).
Proof.
  induction o as [|[k' v'] o IH]; simpl; [discriminate|].
  destruct (key_eqb k k') eqn:E.
  - apply key_eqb_spec in E. subst. auto.
  - auto.
Qed.

Lemma get_notin (o : JsObj.t K V) k : ~ In k (map fst o) -> JsObj.get key_eqb o k = None.
Proof.
  intro Hn. destruct (JsObj.get key_eqb o k) eqn:E; [|reflexivity].
  exfalso. apply Hn. eapply get_in. exact E.
Qed.

Lemma in_keys_set (o : JsObj.t K V) k v k' :
  In k' (map fst (JsObj.set key_eqb o k v)) <-> k' = k \/ In k' (map fst o).
Proof.
  induction o as [|[k0 v0] o IH]; simpl.
  - intuition congruence.
  - destruct (key_eqb k k0) eqn:E; simpl.
    + apply key_eqb_spec in E. subst. intuition congruence.
    + rewrite IH. intuition congruence.
Qed.

Lemma nodup_set (o : JsObj.t K V) k v :
  NoDup (map fst o) -> NoDup (map fst (JsObj.set key_eqb o k v)).
Proof.
  induction o as [|[k0 v0] o IH]; simpl; intro Hnd.
  - constructor; [simpl; tauto | constructor].
  - inversion Hnd as [|? ? Hnin Hnd']; subst.
    destruct (key_eqb k k0) eqn:E; simpl.
    + constructor; assumption.
    + constructor; [|auto].
      rewrite in_keys_set. intros [Heq|Hin]; [|contradiction].
      subst. rewrite key_eqb_refl in E. discriminate.
Qed.

Lemma in_keys_delete (o : JsObj.t K V) k k' :
  In k' (map fst (JsObj.delete key_eqb o k)) -> k' <> k /\ In k' (map fst o).
Proof.
  induction o as [|[k0 v0] o IH]; simpl; [tauto|].
  destruct (key_eqb k k0) eqn:E; simpl.
  - intro H. apply IH in H. tauto.
  - intros [Heq|Hin].
    + subst. split; [|auto]. intro Heq. subst. rewrite key_eqb_refl in E. discriminate.
    + apply IH in Hin. tauto.
Qed.

Lemma nodup_delete (o : JsObj.t K V) k :
  NoDup (map fst o) -> NoDup (map fst (JsObj.delete key_eqb o k)).
Proof.
  induction o as [|[k0 v0] o IH]; simpl; intro Hnd; [constructor|].
  inversion Hnd as [|? ? Hnin Hnd']; subst.
  destruct (key_eqb k k0); simpl; auto.
  constructor; auto.
  intro Hin. apply in_keys_delete in Hin. tauto.
Qed.

Lemma get_set_same (o : JsObj.t K V) k v : JsObj.get key_eqb (JsObj.set key_eqb o k v) k = Some v.
Proof.
  induction o as [|[k0 v0] o IH]; simpl.
  - now rewrite key_eqb_refl.
  - destruct (key_eqb k k0) eqn:E; simpl; rewrite E; auto.
Qed.

Lemma get_set_other (o : JsObj.t K V) k v k' :
  k' <> k -> JsObj.get key_eqb (JsObj.set key_eqb o k v) k' = JsObj.get key_eqb o k'.
Proof.
  intro Hne. induction o as [|[k0 v0] o IH]; simpl.
  - now rewrite key_eqb_neq.
  - destruct (key_eqb k k0) eqn:E; simpl.
    + apply key_eqb_spec in E. subst. now rewrite (key_eqb_neq k' k0 Hne).
    + now rewrite IH.
Qed.

Lemma get_delete_same (o : JsObj.t K V) k : JsObj.get key_eqb (JsObj.delete key_eqb o k) k = None.
Proof.
  induction o as [|[k0 v0] o IH]; simpl; [reflexivity|].
  destruct (key_eqb k k0) eqn:E; simpl; [auto|]. now rewrite E.
Qed.

Lemma get_delete_other (o : JsObj.t K V) k k' :
  k' <> k -> JsObj.get key_eqb (JsObj.delete key_eqb o k) k' = JsObj.get key_eqb o k'.
Proof.
  intro Hne. induction o as [|[k0 v0] o IH]; simpl; [reflexivity|].
  destruct (key_eqb k k0) eqn:E; simpl.
  - apply key_eqb_spec in E. subst. now rewrite (key_eqb_neq k' k0 Hne).
  - destruct (key_eqb k' k0); auto.
Qed.

Lemma delete_absent (o : JsObj.t K V) k :
  JsObj.get key_eqb o k = None -> JsObj.delete key_eqb o k = o.
Proof.
  induction o as [|[k0 v0] o IH]; simpl; [reflexivity|].
  destruct (key_eqb k k0) eqn:E; [discriminate|].
  intro H. now rewrite IH.
Qed.

(** With unique keys, the entries for [k] are exactly the one [get]
    finds. *)
Lemma entries_unique (o : JsObj.t K V) k v :
  NoDup (map fst o) -> JsObj.get key_eqb o k = Some v -> JsObj.entries key_eqb o k = [(k, v)].
Proof.
  unfold JsObj.entries.
  induction o as [|[k0 v0] o IH]; simpl; intros Hnd Hget; [discriminate|].
  inversion Hnd as [|? ? Hnin Hnd']; subst.
  destruct (key_eqb k k0) eqn:E.
  - apply key_eqb_spec in E. subst. injection Hget as <-.
    f_equal. apply get_notin in Hnin.
    clear IH Hnd Hnd'.
    induction o as [|[k1 v1] o IH']; simpl; [reflexivity|].
    simpl in Hnin. destruct (key_eqb k0 k1) eqn:E1; [discriminate|]. auto.
  - auto.
Qed.
End Facts.
End JsObjFacts.

Lemma Z_eqb_spec' a b : (a =? b) = true <-> a = b.
Proof. apply Z.eqb_eq. Qed.

Lemma String_eqb_spec' a b : String.eqb a b = true <-> a = b.
Proof. apply String.eqb_eq. Qed.

(** ** The node store *)
Module EngineFacts.

(** Every node handle in the store was handed out by [alloc]. *)
Definition wf (e : Engine) : Prop :=
  forall id, In id (map fst (nodes e)) -> (id < next_node e)%nat.

Lemma get_app {V} (o1 o2 : list (nat * V)) k :
  JsObj.get Nat.eqb (o1 ++ o2) k =
  match JsObj.get Nat.eqb o1 k with Some v => Some v | None => JsObj.get Nat.eqb o2 k end.
Proof.
  induction o1 as [|[k0 v0] o1 IH]; simpl; [reflexivity|].
  destruct (Nat.eqb k k0); auto.
Qed.

Lemma nat_eqb_spec' a b : Nat.eqb a b = true <-> a = b.
Proof. apply Nat.eqb_eq. Qed.

Lemma set_gain_value_meta e id v :
  next_node (set_gain_value e id v) = next_node e /\ edges (set_gain_value e id v) = edges e
  /\ commands (set_gain_value e id v) = commands e.
Proof.
  unfold set_gain_value. destruct (node_at e id) as [[]|]; repeat split.
Qed.

Lemma set_frequency_value_meta e id v :
  next_node (set_frequency_value e id v) = next_node e /\ edges (set_frequency_value e id v) = edges e
  /\ commands (set_frequency_value e id v) = commands e.
Proof.
  unfold set_frequency_value. destruct (node_at e id) as [[]|]; repeat split.
Qed.

Lemma set_type_meta e id ty :
  next_node (set_type e id ty) = next_node e /\ edges (set_type e id ty) = edges e
  /\ commands (set_type e id ty) = commands e.
Proof.
  unfold set_type. destruct (node_at e id) as [[]|]; repeat split.
Qed.

(** Updating a node that exists keeps the set of handles. *)
Lemma wf_update e id n :
  wf e -> node_at e id <> None -> wf (update_node e id n).
Proof.
  unfold wf, update_node, node_at; simpl. intros Hwf Hex id' Hin.
  apply (JsObjFacts.in_keys_set _ _ _ nat_eqb_spec') in Hin.
  destruct Hin as [->|Hin]; [|auto].
  apply Hwf. destruct (JsObj.get Nat.eqb (nodes e) id) eqn:E; [|congruence].
  eapply (JsObjFacts.get_in _ _ _ nat_eqb_spec'). exact E.
Qed.

Lemma wf_set_gain_value e id v : wf e -> wf (set_gain_value e id v).
Proof.
  unfold set_gain_value. intro Hwf.
  destruct (node_at e id) as [[]|] eqn:E; try (apply wf_update; [exact Hwf | congruence]); exact Hwf.
Qed.

Lemma wf_set_frequency_value e id v : wf e -> wf (set_frequency_value e id v).
Proof.
  unfold set_frequency_value. intro Hwf.
  destruct (node_at e id) as [[]|] eqn:E; try (apply wf_update; [exact Hwf | congruence]); exact Hwf.
Qed.

Lemma wf_set_type e id v : wf e -> wf (set_type e id v).
Proof.
  unfold set_type. intro Hwf.
  destruct (node_at e id) as [[]|] eqn:E; try (apply wf_update; [exact Hwf | congruence]); exact Hwf.
Qed.

Lemma wf_alloc e n : wf e -> wf (fst (alloc e n)).
Proof.
  unfold wf, alloc; simpl. intros Hwf id Hin.
  rewrite map_app in Hin. apply in_app_or in Hin. simpl in Hin.
  destruct Hin as [Hin|[<-|[]]]; [apply Hwf in Hin|]; lia.
Qed.

Lemma wf_connect e a b : wf e -> wf (connect e a b).
Proof. unfold wf, connect; simpl; auto. Qed.

Lemma wf_issue e c : wf e -> wf (issue e c).
Proof. unfold wf, issue; simpl; auto. Qed.

(** In a well-formed store the allocated handle is fresh. *)
Lemma node_at_alloc e n :
  wf e -> node_at (fst (alloc e n)) (snd (alloc e n)) = Some n.
Proof.
  unfold wf, node_at, alloc; simpl. intro Hwf.
  rewrite get_app.
  rewrite (JsObjFacts.get_notin _ _ _ nat_eqb_spec').
  - simpl. now rewrite Nat.eqb_refl.
  - intro Hin. apply Hwf in Hin. lia.
Qed.

Lemma node_at_alloc_other e n id :
  id <> next_node e -> node_at (fst (alloc e n)) id = node_at e id.
Proof.
  unfold node_at, alloc; simpl. intro Hne. rewrite get_app.
  destruct (JsObj.get Nat.eqb (nodes e) id); [reflexivity|]. simpl.
  apply Nat.eqb_neq in Hne. now rewrite Hne.
Qed.

Lemma node_at_update_same e id n : node_at (update_node e id n) id = Some n.
Proof. apply (JsObjFacts.get_set_same _ _ _ nat_eqb_spec'). Qed.

Lemma node_at_update_other e id n id' :
  id' <> id -> node_at (update_node e id n) id' = node_at e id'.
Proof. apply (JsObjFacts.get_set_other _ _ _ nat_eqb_spec'). Qed.

Lemma node_at_set_gain_value_other e id v id' :
  id' <> id -> node_at (set_gain_value e id v) id' = node_at e id'.
Proof.
  unfold set_gain_value. intro Hne.
  destruct (node_at e id) as [[]|]; auto using node_at_update_other.
Qed.

Lemma node_at_set_frequency_value_other e id v id' :
  id' <> id -> node_at (set_frequency_value e id v) id' = node_at e id'.
Proof.
  unfold set_frequency_value. intro Hne.
  destruct (node_at e id) as [[]|]; auto using node_at_update_other.
Qed.

Lemma node_at_set_type_other e id v id' :
  id' <> id -> node_at (set_type e id v) id' = node_at e id'.
Proof.
  unfold set_type. intro Hne.
  destruct (node_at e id) as [[]|]; auto using node_at_update_other.
Qed.

End EngineFacts.

(** ** The handlers, one by one *)
Module HandlerFacts.
Import EngineFacts.

Lemma createOscillator_spec e f e1 o :
  createOscillator e f = (e1, o) ->
  o = next_node e /\ next_node e1 = S (next_node e) /\ edges e1 = edges e
  /\ commands e1 = commands e
  /\ (wf e -> wf e1 /\ node_at e1 o = Some (OscNode "square" f)
             /\ forall id, id <> o -> node_at e1 id = node_at e id).
Proof.
  unfold createOscillator. simpl. intro H. injection H as <- <-.
  set (e0 := mkEngine _ _ _ _).
  destruct (set_type_meta e0 (next_node e) "square") as (N1 & E1 & C1).
  destruct (set_frequency_value_meta (set_type e0 (next_node e) "square") (next_node e) f)
    as (N2 & E2 & C2).
  rewrite N2, E2, C2, N1, E1, C1.
  split; [reflexivity|]. split; [reflexivity|]. split; [reflexivity|].
  split; [reflexivity|]. intro Hwf. split; [|split].
  - apply wf_set_frequency_value, wf_set_type, (wf_alloc e (OscNode "sine" 440) Hwf).
  - pose proof (node_at_alloc e (OscNode "sine" 440) Hwf) as Ha.
    simpl in Ha. fold e0 in Ha.
    assert (Ht : node_at (set_type e0 (next_node e) "square") (next_node e)
                 = Some (OscNode "square" 440)).
    { unfold set_type. rewrite Ha. apply node_at_update_same. }
    unfold set_frequency_value. rewrite Ht. apply node_at_update_same.
  - intros id Hne.
    rewrite node_at_set_frequency_value_other, node_at_set_type_other by exact Hne.
    apply (node_at_alloc_other e (OscNode "sine" 440) id Hne).
Qed.

Lemma createGain_spec s v m :
  masterGainNode s = Some m ->
  exists e2, createGain s v = inl (e2, next_node (engine s))
  /\ next_node e2 = S (next_node (engine s))
  /\ edges e2 = edges (engine s) ++ [(next_node (engine s), m)]
  /\ commands e2 = commands (engine s)
  /\ (wf (engine s) -> wf e2 /\ node_at e2 (next_node (engine s)) = Some (GainNode v)
      /\ forall id, id <> next_node (engine s) -> node_at e2 id = node_at (engine s) id).
Proof.
  intro Hm. unfold createGain. simpl. rewrite Hm.
  eexists. split; [reflexivity|].
  set (e0 := mkEngine _ _ _ _).
  destruct (set_gain_value_meta (connect e0 (next_node (engine s)) m) (next_node (engine s)) v)
    as (N & E & C).
  rewrite N, E, C. simpl.
  split; [reflexivity|]. split; [reflexivity|]. split; [reflexivity|].
  intro Hwf. split; [|split].
  - apply wf_set_gain_value, wf_connect, (wf_alloc _ (GainNode 1) Hwf).
  - pose proof (node_at_alloc (engine s) (GainNode 1) Hwf) as Ha. simpl in Ha. fold e0 in Ha.
    unfold set_gain_value. change (node_at (connect e0 (next_node (engine s)) m))
      with (node_at e0). rewrite Ha. apply node_at_update_same.
  - intros id Hne. rewrite node_at_set_gain_value_other by exact Hne.
    apply (node_at_alloc_other (engine s) (GainNode 1) id Hne).
Qed.

Lemma playNote_running s n v c m :
  audioContext s = Some c -> masterGainNode s = Some m ->
  let o := next_node (engine s) in
  exists e, playNote s n v =
    Done (mkSession (audioContext s) (masterGainNode s) (masterFilter s) (midiPorts s)
            (JsObj.set Z.eqb (pressedKeys s) n o) e (listeners s))
  /\ next_node e = S (S o)
  /\ commands e = commands (engine s) ++ [StartCmd o]
  /\ In (o, S o) (edges e)
  /\ (wf (engine s) -> wf e
      /\ node_at e o = Some (OscNode "square" (midiNoteToFreq n))
      /\ node_at e (S o) = Some (GainNode (midiVelocityToGain v))
      /\ forall id, id <> o -> id <> S o -> node_at e id = node_at (engine s) id).
Proof.
  intros Hc Hm o. unfold playNote. rewrite Hc.
  destruct (createOscillator (engine s) (midiNoteToFreq n)) as [e1 o1] eqn:E1.
  destruct (createOscillator_spec _ _ _ _ E1) as (Ho & N1 & Ed1 & C1 & W1).
  assert (Hm1 : masterGainNode (with_engine s e1) = Some m) by exact Hm.
  destruct (createGain_spec (with_engine s e1) (midiVelocityToGain v) m Hm1)
    as (e2 & E2 & N2 & Ed2 & C2 & W2).
  rewrite E2. simpl in N2, Ed2, C2, W2 |- *. subst o1. fold o in N1, W1 |- *.
  rewrite N1 in N2, Ed2, W2 |- *.
  eexists. split; [rewrite <- Hc; reflexivity|].
  simpl. rewrite N2, C2, C1.
  split; [reflexivity|]. split; [reflexivity|].
  split; [apply in_or_app; right; left; reflexivity|].
  intro Hwf. destruct (W1 Hwf) as (Wf1 & Osc1 & Oth1).
  destruct (W2 Wf1) as (Wf2 & G2 & Oth2).
  split; [|split; [|split]].
  - apply wf_issue, wf_connect, Wf2.
  - change (node_at e2 o = Some (OscNode "square" (midiNoteToFreq n))).
    rewrite Oth2 by lia. exact Osc1.
  - exact G2.
  - intros id H1 H2. change (node_at e2 id = node_at (engine s) id).
    rewrite Oth2 by exact H2. apply Oth1, H1.
Qed.

Lemma createFilter_spec e e1 f :
  createFilter e = (e1, f) ->
  f = next_node e /\ next_node e1 = S (next_node e) /\ edges e1 = edges e
  /\ commands e1 = commands e
  /\ (wf e -> wf e1 /\ node_at e1 f = Some (BiquadNode "lowpass" 350 1)
             /\ forall id, id <> f -> node_at e1 id = node_at e id).
Proof.
  unfold createFilter, assign_readonly_attribute. simpl. intro H. injection H as <- <-.
  set (e0 := mkEngine _ _ _ _).
  destruct (set_type_meta e0 (next_node e) "lowpass") as (N1 & E1 & C1).
  rewrite N1, E1, C1. simpl.
  split; [reflexivity|]. split; [reflexivity|]. split; [reflexivity|].
  split; [reflexivity|]. intro Hwf. split; [|split].
  - apply wf_set_type, (wf_alloc e (BiquadNode "lowpass" 350 1) Hwf).
  - pose proof (node_at_alloc e (BiquadNode "lowpass" 350 1) Hwf) as Ha.
    simpl in Ha. fold e0 in Ha.
    unfold set_type. rewrite Ha. apply node_at_update_same.
  - intros id Hne. rewrite node_at_set_type_other by exact Hne.
    apply (node_at_alloc_other e _ id Hne).
Qed.

Lemma createAudio_spec s :
  let d := next_node (engine s) in
  exists e, createAudio true s =
    mkSession (Some d) (Some (S d)) (Some (S (S d)))
      (midiPorts s) (pressedKeys s) e (listeners s)
  /\ next_node e = S (S (S d))
  /\ commands e = commands (engine s)
  /\ edges e = edges (engine s) ++ [(S d, S (S d)); (S (S d), d)]
  /\ (wf (engine s) -> wf e
      /\ node_at e d = Some DestinationNode
      /\ node_at e (S d) = Some (GainNode 0.5)
      /\ node_at e (S (S d)) = Some (BiquadNode "lowpass" 350 1)).
Proof.
  intro d. unfold createAudio. simpl negb. cbv iota.
  set (e0 := fst (alloc (engine s) DestinationNode)).
  change (alloc (engine s) DestinationNode) with (e0, d). cbv iota.
  set (e1 := fst (alloc e0 (GainNode 1))).
  change (alloc e0 (GainNode 1)) with (e1, S d). cbv iota.
  destruct (createFilter (set_gain_value e1 (S d) 0.5)) as [e2 f] eqn:Ef.
  destruct (createFilter_spec _ _ _ Ef) as (Hf & N2 & Ed2 & C2 & W2).
  destruct (set_gain_value_meta e1 (S d) 0.5) as (N1 & Ed1 & C1).
  rewrite N1 in Hf, N2. simpl in Hf, N2. subst f.
  eexists. split; [reflexivity|].
  simpl. rewrite N2, C2, C1, Ed2, Ed1. simpl.
  split; [reflexivity|]. split; [reflexivity|].
  split; [rewrite <- app_assoc; reflexivity|].
  intro Hwf.
  assert (W0 : wf e0) by apply (wf_alloc _ _ Hwf).
  assert (W1 : wf e1) by apply (wf_alloc _ _ W0).
  assert (A0 : node_at e0 d = Some DestinationNode) by apply (node_at_alloc _ _ Hwf).
  assert (A1 : node_at e1 (S d) = Some (GainNode 1)) by apply (node_at_alloc _ _ W0).
  assert (A1d : node_at e1 d = Some DestinationNode).
  { unfold e1. rewrite node_at_alloc_other; [exact A0|]. unfold e0. simpl. lia. }
  assert (G : node_at (set_gain_value e1 (S d) 0.5) (S d) = Some (GainNode 0.5)).
  { unfold set_gain_value. rewrite A1. apply node_at_update_same. }
  destruct (W2 (wf_set_gain_value _ _ _ W1)) as (Wf2 & F2 & O2).
  split; [|split; [|split]].
  - apply wf_connect, wf_connect, Wf2.
  - change (node_at e2 d = Some DestinationNode).
    rewrite O2 by lia. rewrite node_at_set_gain_value_other by lia. exact A1d.
  - change (node_at e2 (S d) = Some (GainNode 0.5)).
    rewrite O2 by lia. exact G.
  - exact F2.
Qed.
End HandlerFacts.

(** ** The reachable sessions *)
Module Reachable.
Import EngineFacts HandlerFacts.

(** What holds of every session the page can reach from [init]:
    [pressedKeys] has unique keys and points to allocated oscillators;
    before [createAudio] nothing audio-related exists; after it the master
    gain node exists. *)
Definition Inv (s : Session) : Prop :=
  NoDup (map fst (pressedKeys s))
  /\ wf (engine s)
  /\ (forall k o, JsObj.get Z.eqb (pressedKeys s) k = Some o -> (o < next_node (engine s))%nat)
  /\ (audioContext s = None ->
        pressedKeys s = [] /\ masterGainNode s = None /\ masterFilter s = None)
  /\ (audioContext s <> None -> masterGainNode s <> None).

Lemma Inv_init : Inv init.
Proof.
  unfold Inv, init; simpl. repeat split; try constructor; try discriminate.
  - intros id [].
  - tauto.
Qed.

Lemma Inv_with_engine s e :
  Inv s -> wf e -> (next_node (engine s) <= next_node e)%nat -> Inv (with_engine s e).
Proof.
  unfold Inv, with_engine; simpl. intros (H1 & H2 & H3 & H4 & H5) Hwf Hle.
  split; [|split; [|split; [|split]]]; auto. intros k o Hk. apply H3 in Hk. lia.
Qed.

Lemma Inv_playNote s n v : Inv s -> Inv (outcome_state (playNote s n v)).
Proof.
  intros Hs. pose proof Hs as (H1 & H2 & H3 & H4 & H5).
  destruct (audioContext s) as [c|] eqn:Hc.
  - destruct (masterGainNode s) as [m|] eqn:Hm; [|exfalso; apply H5; [discriminate | reflexivity]].
    destruct (playNote_running s n v c m Hc Hm) as (e & -> & N & C & Ed & W).
    destruct (W H2) as (Wf & _ & _ & _).
    unfold Inv; simpl. split; [|split; [exact Wf|split; [|split]]].
    + apply (JsObjFacts.nodup_set _ _ _ Z_eqb_spec'), H1.
    + intros k o Hk. rewrite N.
      destruct (Z.eq_dec k n) as [->|Hne].
      * rewrite (JsObjFacts.get_set_same _ _ _ Z_eqb_spec') in Hk.
        injection Hk as <-. lia.
      * rewrite (JsObjFacts.get_set_other _ _ _ Z_eqb_spec') in Hk by exact Hne.
        apply H3 in Hk. lia.
    + rewrite Hc. discriminate.
    + rewrite Hm. discriminate.
  - unfold playNote. rewrite Hc. exact Hs.
Qed.

Lemma Inv_stopNote s n : Inv s -> Inv (outcome_state (stopNote s n)).
Proof.
  intros Hs. unfold stopNote.
  destruct (JsObj.get Z.eqb (pressedKeys s) n) as [o|] eqn:Hg; [|exact Hs].
  destruct Hs as (H1 & H2 & H3 & H4 & H5).
  unfold Inv, with_pressedKeys, with_engine; simpl.
  split; [|split; [|split; [|split]]].
  - apply (JsObjFacts.nodup_delete _ _ _ Z_eqb_spec'), H1.
  - apply wf_issue, H2.
  - intros k o' Hk. destruct (Z.eq_dec k n) as [->|Hne].
    + rewrite JsObjFacts.get_delete_same in Hk. discriminate.
    + rewrite (JsObjFacts.get_delete_other _ _ _ Z_eqb_spec') in Hk by exact Hne.
      exact (H3 _ _ Hk).
  - intro Hc. destruct (H4 Hc) as (Hk & _). rewrite Hk in Hg. discriminate.
  - exact H5.
Qed.

Lemma Inv_setMasterGain s v : Inv s -> Inv (outcome_state (setMasterGain s v)).
Proof.
  intros Hs. unfold setMasterGain. destruct (masterGainNode s) as [m|]; [|exact Hs].
  apply Inv_with_engine; [exact Hs| |].
  - apply wf_set_gain_value. apply Hs.
  - destruct (set_gain_value_meta (engine s) m v) as (-> & _). lia.
Qed.

Lemma Inv_setMasterFilterFreq s d : Inv s -> Inv (outcome_state (setMasterFilterFreq s d)).
Proof.
  intros Hs. unfold setMasterFilterFreq. destruct (masterFilter s) as [f|]; [|exact Hs].
  apply Inv_with_engine; [exact Hs| |].
  - apply wf_set_frequency_value. apply Hs.
  - destruct (set_frequency_value_meta (engine s) f (IZR d / 64 * 1000)%R) as (-> & _). lia.
Qed.

Lemma Inv_andThen o f :
  Inv (outcome_state o) -> (forall s, Inv s -> Inv (outcome_state (f s))) ->
  Inv (outcome_state (andThen o f)).
Proof. destruct o; simpl; auto. Qed.

Lemma Inv_onMidiMessage s sb d1 d2 : Inv s -> Inv (outcome_state (onMidiMessage s sb d1 d2)).
Proof.
  intros Hs. unfold onMidiMessage.
  apply Inv_andThen; [destruct (isNoteOn sb); [apply Inv_playNote|]; exact Hs|].
  intros s1 Hs1. apply Inv_andThen; [destruct (isNoteOff sb); [apply Inv_stopNote|]; exact Hs1|].
  intros s2 Hs2. apply Inv_andThen.
  - destruct (sb =? 176); [|exact Hs2].
    destruct (d1 =? 1); [exact Hs2|].
    destruct (d1 =? 7); [apply Inv_setMasterGain|]; exact Hs2.
  - intros s3 Hs3. destruct (sb =? 224); [apply Inv_setMasterFilterFreq|]; exact Hs3.
Qed.

Lemma Inv_createAudio b s : Inv s -> Inv (createAudio b s).
Proof.
  intro Hs. destruct b; [|exact Hs].
  destruct (createAudio_spec s) as (e & -> & N & _ & _ & W).
  destruct Hs as (H1 & H2 & H3 & _ & _).
  unfold Inv; simpl. split; [exact H1|]. split; [apply W, H2|].
  split; [|split; discriminate].
  intros k o Hk. apply H3 in Hk. rewrite N. lia.
Qed.

Lemma Inv_with_ports s p ls : Inv s -> Inv (with_ports s p ls).
Proof. intro Hs. exact Hs. Qed.

Lemma Inv_enableMidiInput s p : Inv s -> Inv (enableMidiInput s p).
Proof.
  intro Hs. unfold enableMidiInput.
  destruct (port_truthy (midiPorts s) (name p)); [exact Hs|].
  apply Inv_with_ports, Hs.
Qed.

Lemma Inv_disableMidiInput s p : Inv s -> Inv (disableMidiInput s p).
Proof.
  intro Hs. unfold disableMidiInput.
  destruct (port_truthy (midiPorts s) (name p)); [|exact Hs].
  apply Inv_with_ports, Hs.
Qed.

Lemma Inv_step s ev : Inv s -> Inv (step s ev).
Proof.
  intro Hs. destruct ev as [b|inputs|port state|sb d1 d2]; simpl.
  - apply Inv_createAudio, Hs.
  - revert s Hs. induction inputs as [|p inputs IH]; simpl; intros s Hs; [exact Hs|].
    apply IH, Inv_enableMidiInput, Hs.
  - unfold onStateChange.
    destruct (String.eqb (type port) "input"); [|exact Hs].
    destruct (String.eqb state "connected"); [apply Inv_enableMidiInput, Hs|].
    destruct (String.eqb state "disconnected"); [apply Inv_disableMidiInput|]; exact Hs.
  - apply Inv_onMidiMessage, Hs.
Qed.

Lemma Inv_run s evs : Inv s -> Inv (run s evs).
Proof.
  unfold run. revert s. induction evs as [|ev evs IH]; simpl; intros s Hs; [exact Hs|].
  apply IH, Inv_step, Hs.
Qed.

Lemma Inv_reachable evs : Inv (run init evs).
Proof. apply Inv_run, Inv_init. Qed.
End Reachable.

(** ** Dispatch on the status byte *)
Module Dispatch.

Lemma noteOn_excl sb :
  isNoteOn sb = true -> isNoteOff sb = false /\ (sb =? 176) = false /\ (sb =? 224) = false.
Proof.
  unfold isNoteOn, isNoteOff. rewrite andb_true_iff, !Z.leb_le. intros [H1 H2].
  repeat split.
  - apply andb_false_iff. right. apply Z.leb_gt. lia.
  - apply Z.eqb_neq. lia.
  - apply Z.eqb_neq. lia.
Qed.

Lemma noteOff_excl sb :
  isNoteOff sb = true -> (sb =? 176) = false /\ (sb =? 224) = false.
Proof.
  unfold isNoteOff. rewrite andb_true_iff, !Z.leb_le. intros [H1 H2].
  split; apply Z.eqb_neq; lia.
Qed.

Lemma andThen_Done o : andThen o Done = o.
Proof. destruct o; reflexivity. Qed.

(** [onMidiMessage] takes the action of the one event [decode] names. *)
Lemma onMidiMessage_decode s sb d1 d2 :
  onMidiMessage s sb d1 d2 = handleEvent s (decode sb d1 d2).
Proof.
  unfold onMidiMessage, decode.
  destruct (isNoteOn sb) eqn:E1.
  - destruct (noteOn_excl sb E1) as (-> & -> & ->). simpl.
    destruct (playNote s d1 d2); reflexivity.
  - destruct (isNoteOff sb) eqn:E2.
    + destruct (noteOff_excl sb E2) as (-> & ->). simpl.
      destruct (stopNote s d1); reflexivity.
    + simpl. destruct (sb =? 176) eqn:E3.
      * apply Z.eqb_eq in E3. subst sb. simpl.
        destruct (d1 =? 1); [reflexivity|].
        destruct (d1 =? 7); [|reflexivity].
        unfold setMasterGain. destruct (masterGainNode s); reflexivity.
      * simpl. destruct (sb =? 224); reflexivity.
Qed.

Lemma onMidiMessage_noteOn s sb d1 d2 :
  isNoteOn sb = true -> onMidiMessage s sb d1 d2 = playNote s d1 d2.
Proof.
  intro H. rewrite onMidiMessage_decode. unfold decode. now rewrite H.
Qed.

Lemma onMidiMessage_noteOff s sb d1 d2 :
  isNoteOff sb = true -> onMidiMessage s sb d1 d2 = stopNote s d1.
Proof.
  intro H. rewrite onMidiMessage_decode. unfold decode.
  destruct (isNoteOn sb) eqn:E.
  - apply noteOn_excl in E. destruct E as (E & _). congruence.
  - now rewrite H.
Qed.

Lemma entries_none {V} (o : JsObj.t Z V) k :
  JsObj.get Z.eqb o k = None -> JsObj.entries Z.eqb o k = [].
Proof.
  unfold JsObj.entries. induction o as [|[k0 v0] o IH]; simpl; [reflexivity|].
  destruct (k =? k0); [discriminate|]. exact IH.
Qed.

Lemma entries_le_1 {V} (o : JsObj.t Z V) k :
  NoDup (map fst o) -> (List.length (JsObj.entries Z.eqb o k) <= 1)%nat.
Proof.
  intro Hnd. destruct (JsObj.get Z.eqb o k) as [v|] eqn:E.
  - rewrite (JsObjFacts.entries_unique _ _ _ Z_eqb_spec' o k v Hnd E). simpl. lia.
  - rewrite (entries_none o k E). simpl. lia.
Qed.
End Dispatch.

(** * The claims *)
Module Claims.
Import EngineFacts HandlerFacts Reachable Dispatch.

(** Sanity checks on concrete runs: a note played and released. *)
Example play_release_keys :
  pressedKeys (run init [StartClick true; MidiMessage 144 60 90; MidiMessage 128 60 0]) = [].
Proof. reflexivity. Qed.

Example play_release_commands :
  commands (engine (run init [StartClick true; MidiMessage 144 60 90; MidiMessage 128 60 0]))
  = [StartCmd 3; StopCmd 3].
Proof. reflexivity. Qed.

Example double_note_on_keys :
  pressedKeys (run init [StartClick true; MidiMessage 144 60 90; MidiMessage 150 60 20]) = [(60, 5%nat)].
Proof. reflexivity. Qed.

(** C1: along every sequence of handled events [pressedKeys] holds at
    most one entry per note; a NoteOn for a note already sounding while
    Running leaves exactly one entry for it, a fresh oscillator, and
    issues only that oscillator's start: the previous one is not
    stopped. *)
Theorem C1_one_voice_per_note :
  (forall evs n, (List.length (JsObj.entries Z.eqb (pressedKeys (run init evs)) n) <= 1)%nat)
  /\ (forall evs n sb v o,
        let s := run init evs in
        audioContext s <> None -> isNoteOn sb = true ->
        JsObj.get Z.eqb (pressedKeys s) n = Some o ->
        let s' := outcome_state (onMidiMessage s sb n v) in
        exists o', JsObj.entries Z.eqb (pressedKeys s') n = [(n, o')] /\ o' <> o
                   /\ commands (engine s') = commands (engine s) ++ [StartCmd o']).
Proof.
  split.
  - intros evs n. apply entries_le_1, Inv_reachable.
  - intros evs n sb v o s Hc Hon Hg s'.
    pose proof (Inv_reachable evs) as (H1 & H2 & H3 & _ & H5). fold s in H1, H2, H3, H5.
    destruct (audioContext s) as [c|] eqn:Ec; [|congruence].
    destruct (masterGainNode s) as [m|] eqn:Em; [|exfalso; apply H5; [discriminate|reflexivity]].
    destruct (playNote_running s n v c m Ec Em) as (e & Hp & N & C & _).
    unfold s'. rewrite onMidiMessage_noteOn by exact Hon. rewrite Hp. simpl.
    exists (next_node (engine s)). split; [|split].
    + apply (JsObjFacts.entries_unique _ _ _ Z_eqb_spec').
      * apply (JsObjFacts.nodup_set _ _ _ Z_eqb_spec'), H1.
      * apply (JsObjFacts.get_set_same _ _ _ Z_eqb_spec').
    + apply H3 in Hg. lia.
    + exact C.
Qed.

Lemma C1_one_voice_per_note_witness :
  let s := run init [StartClick true; MidiMessage 144 60 90] in
  audioContext s <> None /\ isNoteOn 144 = true /\ JsObj.get Z.eqb (pressedKeys s) 60 = Some 3%nat
  /\ exists o', JsObj.entries Z.eqb (pressedKeys (outcome_state (onMidiMessage s 144 60 90))) 60 = [(60, o')]
                /\ o' <> 3%nat
                /\ commands (engine (outcome_state (onMidiMessage s 144 60 90)))
                   = commands (engine s) ++ [StartCmd o'].
Proof.
  intro s. split; [discriminate|]. split; [reflexivity|]. split; [reflexivity|].
  apply (proj2 C1_one_voice_per_note [StartClick true; MidiMessage 144 60 90] 60 144 90 3%nat);
    [discriminate | reflexivity | reflexivity].
Defined.

(** C2: from a Running session with no held key, NoteOn(60, 90) then
    NoteOff(60) creates a voice, removes it, leaves [pressedKeys] empty
    and issues exactly one stop, for that voice. *)
Theorem C2_note_on_off_scenario :
  forall evs sb_on sb_off d2,
    let s := run init evs in
    audioContext s <> None -> pressedKeys s = [] ->
    isNoteOn sb_on = true -> isNoteOff sb_off = true ->
    let s1 := outcome_state (onMidiMessage s sb_on 60 90) in
    let s2 := outcome_state (onMidiMessage s1 sb_off 60 d2) in
    exists o, pressedKeys s1 = [(60, o)]
      /\ pressedKeys s2 = []
      /\ commands (engine s2) = commands (engine s) ++ [StartCmd o; StopCmd o].
Proof.
  intros evs sb_on sb_off d2 s Hc Hk Hon Hoff s1 s2.
  pose proof (Inv_reachable evs) as (_ & _ & _ & _ & H5). fold s in H5.
  destruct (audioContext s) as [c|] eqn:Ec; [|congruence].
  destruct (masterGainNode s) as [m|] eqn:Em; [|exfalso; apply H5; [discriminate|reflexivity]].
  destruct (playNote_running s 60 90 c m Ec Em) as (e & Hp & N & C & _).
  assert (E1 : s1 = mkSession (audioContext s) (masterGainNode s) (masterFilter s) (midiPorts s)
                 [(60, next_node (engine s))] e (listeners s)).
  { unfold s1. rewrite onMidiMessage_noteOn by exact Hon. rewrite Hp, Hk. reflexivity. }
  exists (next_node (engine s)).
  split; [rewrite E1; reflexivity|].
  unfold s2. rewrite onMidiMessage_noteOff by exact Hoff. rewrite E1.
  unfold stopNote. simpl. split; [reflexivity|].
  rewrite C, <- app_assoc. reflexivity.
Qed.

Lemma C2_note_on_off_scenario_witness :
  let s := run init [StartClick true] in
  audioContext s <> None /\ pressedKeys s = [] /\ isNoteOn 144 = true /\ isNoteOff 128 = true
  /\ exists o, pressedKeys (outcome_state (onMidiMessage s 144 60 90)) = [(60, o)]
      /\ pressedKeys (outcome_state (onMidiMessage (outcome_state (onMidiMessage s 144 60 90)) 128 60 64)) = []
      /\ commands (engine (outcome_state (onMidiMessage (outcome_state (onMidiMessage s 144 60 90)) 128 60 64)))
         = commands (engine s) ++ [StartCmd o; StopCmd o].
Proof.
  intro s. split; [discriminate|]. split; [reflexivity|]. split; [reflexivity|]. split; [reflexivity|].
  apply (C2_note_on_off_scenario [StartClick true] 144 128 64);
    [discriminate | reflexivity | reflexivity | reflexivity].
Defined.

(** C3: while Idle (no [AudioContext] yet) every message leaves the
    session exactly as it was; in particular [pressedKeys] stays empty and
    no master node exists. *)
Theorem C3_idle_ignores_events :
  forall evs sb d1 d2,
    let s := run init evs in
    audioContext s = None ->
    onMidiMessage s sb d1 d2 = Done s
    /\ pressedKeys s = [] /\ masterGainNode s = None /\ masterFilter s = None.
Proof.
  intros evs sb d1 d2 s Hc.
  pose proof (Inv_reachable evs) as (_ & _ & _ & H4 & _). fold s in H4.
  destruct (H4 Hc) as (Hk & Hm & Hf).
  split; [|auto].
  rewrite onMidiMessage_decode.
  destruct (decode sb d1 d2) as [n v|n|c v|v|]; simpl.
  - unfold playNote. now rewrite Hc.
  - unfold stopNote. now rewrite Hk.
  - destruct (c =? 1); [reflexivity|]. destruct (c =? 7); [|reflexivity].
    unfold setMasterGain. now rewrite Hm.
  - unfold setMasterFilterFreq. now rewrite Hf.
  - reflexivity.
Qed.

Lemma C3_idle_ignores_events_witness :
  let s := run init [StartClick false] in
  audioContext s = None
  /\ onMidiMessage s 144 69 100 = Done s
  /\ pressedKeys s = [] /\ masterGainNode s = None /\ masterFilter s = None.
Proof.
  intro s. split; [reflexivity|].
  apply (C3_idle_ignores_events [StartClick false] 144 69 100). reflexivity.
Defined.

(** C4: every 3-byte message passes at most one of the source's status
    tests, so it is classified as exactly one event, by the status byte
    alone as in spec section 4.1, with the data bytes (any integer, also
    above 127) passed through unchanged; the NoteOff data2 and the
    PitchBend data1 are ignored; and [onMidiMessage] does exactly the
    action of that event. *)
Theorem C4_decode_classification :
  forall sb d1 d2,
    (guards_passed sb <= 1)%nat
    /\ decode sb d1 d2 = decode_by_ranges sb d1 d2
    /\ (forall s, onMidiMessage s sb d1 d2 = handleEvent s (decode sb d1 d2))
    /\ (forall d2', isNoteOff sb = true -> decode sb d1 d2' = decode sb d1 d2)
    /\ (forall d1', sb = 224 -> decode sb d1' d2 = decode sb d1 d2).
Proof.
  intros sb d1 d2. split; [|split; [|split; [|split]]].
  - unfold guards_passed.
    destruct (isNoteOn sb) eqn:E1; [destruct (noteOn_excl _ E1) as (-> & -> & ->); simpl; lia|].
    destruct (isNoteOff sb) eqn:E2; [destruct (noteOff_excl _ E2) as (-> & ->); simpl; lia|].
    destruct (sb =? 176) eqn:E3.
    + apply Z.eqb_eq in E3. subst sb. simpl. lia.
    + destruct (sb =? 224); simpl; lia.
  - reflexivity.
  - intro s. apply onMidiMessage_decode.
  - intros d2' H. unfold decode. destruct (isNoteOn sb) eqn:E.
    + apply noteOn_excl in E. destruct E as (E & _). congruence.
    + now rewrite H.
  - intros d1' ->. reflexivity.
Qed.

Lemma C4_decode_classification_witness :
  decode 200 300 400 = Other /\ decode 145 200 255 = NoteOn 200 255
  /\ decode 130 60 7 = decode 130 60 99 /\ decode 224 0 64 = decode 224 127 64.
Proof.
  split; [reflexivity|]. split; [reflexivity|].
  split; [apply (proj1 (proj2 (proj2 (proj2 (C4_decode_classification 130 60 99))))); reflexivity|].
  apply (proj2 (proj2 (proj2 (proj2 (C4_decode_classification 224 127 64))))). reflexivity.
Defined.

Lemma isNoteOn_range sb : isNoteOn sb = true -> 144 <= sb <= 159.
Proof. unfold isNoteOn. rewrite andb_true_iff, !Z.leb_le. tauto. Qed.

Lemma isNoteOff_range sb : isNoteOff sb = true -> 128 <= sb <= 143.
Proof. unfold isNoteOff. rewrite andb_true_iff, !Z.leb_le. tauto. Qed.

(** C5: a status byte outside [128, 159] that is neither 176 nor 224 is
    classified as Other, and handling the message changes nothing and
    throws nothing, whatever the session. *)
Theorem C5_other_no_mutation :
  forall sb d1 d2,
    ~ (128 <= sb <= 159) -> sb <> 176 -> sb <> 224 ->
    decode sb d1 d2 = Other /\ forall s, onMidiMessage s sb d1 d2 = Done s.
Proof.
  intros sb d1 d2 Hr H176 H224.
  assert (Hd : decode sb d1 d2 = Other).
  { unfold decode.
    destruct (isNoteOn sb) eqn:E1; [apply isNoteOn_range in E1; lia|].
    destruct (isNoteOff sb) eqn:E2; [apply isNoteOff_range in E2; lia|].
    apply Z.eqb_neq in H176, H224. now rewrite H176, H224. }
  split; [exact Hd|]. intro s. rewrite onMidiMessage_decode, Hd. reflexivity.
Qed.

Lemma C5_other_no_mutation_witness :
  decode 200 1 2 = Other /\ onMidiMessage init 200 1 2 = Done init.
Proof.
  destruct (C5_other_no_mutation 200 1 2) as [H1 H2]; [lia | lia | lia |].
  split; [exact H1 | apply H2].
Defined.

(** C6: [stopNote] on a note with no entry is a no-op (no stop command,
    session unchanged, also via a NoteOff message); on a note with entry
    [o] it stops [o] and removes exactly that entry. *)
Theorem C6_stop_unheld_noop :
  forall s n o,
    (JsObj.get Z.eqb (pressedKeys s) n = None ->
       stopNote s n = Done s
       /\ forall sb d2, isNoteOff sb = true -> onMidiMessage s sb n d2 = Done s)
    /\ (JsObj.get Z.eqb (pressedKeys s) n = Some o ->
       stopNote s n =
         Done (with_pressedKeys (with_engine s (issue (engine s) (StopCmd o)))
                 (JsObj.delete Z.eqb (pressedKeys s) n))
       /\ JsObj.get Z.eqb (JsObj.delete Z.eqb (pressedKeys s) n) n = None
       /\ forall k, k <> n ->
            JsObj.get Z.eqb (JsObj.delete Z.eqb (pressedKeys s) n) k = JsObj.get Z.eqb (pressedKeys s) k).
Proof.
  intros s n o. split.
  - intro Hg. assert (Hs : stopNote s n = Done s) by (unfold stopNote; now rewrite Hg).
    split; [exact Hs|]. intros sb d2 Hoff. rewrite onMidiMessage_noteOff by exact Hoff. exact Hs.
  - intro Hg. split; [unfold stopNote; now rewrite Hg|]. split.
    + apply JsObjFacts.get_delete_same.
    + intros k Hne. apply (JsObjFacts.get_delete_other _ _ _ Z_eqb_spec'), Hne.
Qed.

Lemma C6_stop_unheld_noop_witness :
  stopNote init 60 = Done init /\ onMidiMessage init 128 60 0 = Done init
  /\ stopNote (with_pressedKeys init [(60, 7%nat)]) 60
     = Done (with_pressedKeys (with_engine (with_pressedKeys init [(60, 7%nat)])
               (issue empty_engine (StopCmd 7))) []).
Proof.
  destruct (proj1 (C6_stop_unheld_noop init 60 0%nat) eq_refl) as [H1 H2].
  split; [exact H1|]. split; [apply H2; reflexivity|].
  apply (proj2 (C6_stop_unheld_noop (with_pressedKeys init [(60, 7%nat)]) 60 7%nat) eq_refl).
Defined.

Lemma listener_eqb_refl l : listener_eqb l l = true.
Proof.
  destruct l as [[t ty] h]. simpl. rewrite Nat.eqb_refl, String.eqb_refl.
  destruct h; reflexivity.
Qed.

Lemma count_zero_existsb ls l : count_listener ls l = 0%nat -> existsb (listener_eqb l) ls = false.
Proof.
  unfold count_listener. induction ls as [|l' ls IH]; simpl; [reflexivity|].
  destruct (listener_eqb l l'); simpl; [discriminate|]. exact IH.
Qed.

Lemma count_app ls1 ls2 l :
  count_listener (ls1 ++ ls2) l = (count_listener ls1 l + count_listener ls2 l)%nat.
Proof. unfold count_listener. now rewrite filter_app, length_app. Qed.

Lemma entries_set_absent {V} (o : JsObj.t string V) k v :
  JsObj.get String.eqb o k = None ->
  JsObj.entries String.eqb (JsObj.set String.eqb o k v) k = [(k, v)].
Proof.
  unfold JsObj.entries. induction o as [|[k0 v0] o IH]; simpl; intro Hg.
  - now rewrite String.eqb_refl.
  - destruct (String.eqb k k0) eqn:E; [discriminate|]. simpl. rewrite E. auto.
Qed.

Lemma remove_absent ls l : count_listener ls l = 0%nat -> removeEventListener ls l = ls.
Proof.
  unfold count_listener, removeEventListener.
  induction ls as [|l' ls IH]; simpl; [reflexivity|].
  destruct (listener_eqb l l'); simpl; [discriminate|]. intro H. now rewrite IH.
Qed.

Lemma port_truthy_set (o : JsObj.t string MIDIPort) k v :
  port_truthy (JsObj.set String.eqb o k v) k = true.
Proof. unfold port_truthy. now rewrite (JsObjFacts.get_set_same _ _ _ String_eqb_spec'). Qed.

Lemma port_truthy_own_absent (o : JsObj.t string MIDIPort) k :
  JsObj.get String.eqb o k = None -> port_truthy o k = inherited_key k.
Proof. unfold port_truthy. intro H. now rewrite H. Qed.

Lemma disable_inherited_unsubscribed s d :
  JsObj.get String.eqb (midiPorts s) (name d) = None ->
  inherited_key (name d) = true ->
  count_listener (listeners s) (port_id d, "statechange"%string, OnStateChange) = 0%nat ->
  count_listener (listeners s) (port_id d, "midimessage"%string, OnMidiMessage) = 0%nat ->
  disableMidiInput s d = s.
Proof.
  intros Hg Hi Hsc Hmm. unfold disableMidiInput.
  rewrite (port_truthy_own_absent _ _ Hg), Hi. simpl negb. cbv iota.
  rewrite (remove_absent _ _ Hsc), (remove_absent _ _ Hmm).
  rewrite (JsObjFacts.delete_absent _ _ _ _ _ Hg).
  destruct s; reflexivity.
Qed.

(** C7: enabling a port whose name already makes [midiPorts[name]] truthy
    changes nothing, so two enables act as one.  For a name that is neither
    an own key nor a property of [Object.prototype], two enables leave one
    [midiPorts] entry and one ["midimessage"] listener on the port, and
    disabling it changes nothing.  For a name such as ["constructor"] or
    ["toString"] the guard is always truthy: two enables leave the session
    as it was, with no entry and no listener added, so the port is never
    subscribed; disabling it (with none of the script's listeners on it)
    changes nothing. *)
Theorem C7_device_registry_idempotent :
  (forall s d d', name d' = name d -> enableMidiInput (enableMidiInput s d) d' = enableMidiInput s d)
  /\ (forall s d,
        JsObj.get String.eqb (midiPorts s) (name d) = None ->
        inherited_key (name d) = false ->
        count_listener (listeners s) (port_id d, "midimessage"%string, OnMidiMessage) = 0%nat ->
        let s2 := enableMidiInput (enableMidiInput s d) d in
        JsObj.entries String.eqb (midiPorts s2) (name d) = [(name d, d)]
        /\ count_listener (listeners s2) (port_id d, "midimessage"%string, OnMidiMessage) = 1%nat)
  /\ (forall s d,
        JsObj.get String.eqb (midiPorts s) (name d) = None ->
        inherited_key (name d) = true ->
        enableMidiInput (enableMidiInput s d) d = s)
  /\ (forall s d,
        JsObj.get String.eqb (midiPorts s) (name d) = None ->
        inherited_key (name d) = false -> disableMidiInput s d = s)
  /\ (forall s d,
        JsObj.get String.eqb (midiPorts s) (name d) = None ->
        inherited_key (name d) = true ->
        count_listener (listeners s) (port_id d, "statechange"%string, OnStateChange) = 0%nat ->
        count_listener (listeners s) (port_id d, "midimessage"%string, OnMidiMessage) = 0%nat ->
        disableMidiInput s d = s).
Proof.
  assert (Hidem : forall s d d', name d' = name d ->
            enableMidiInput (enableMidiInput s d) d' = enableMidiInput s d).
  { intros s d d' Hn. unfold enableMidiInput at 2.
    destruct (port_truthy (midiPorts s) (name d)) eqn:E.
    - unfold enableMidiInput. now rewrite Hn, E.
    - unfold enableMidiInput at 1. simpl. rewrite Hn, port_truthy_set.
      unfold enableMidiInput; now rewrite E. }
  split; [exact Hidem|]. split; [|split; [|split]].
  - intros s d Hg Hi Hc s2. unfold s2. rewrite (Hidem s d d eq_refl).
    unfold enableMidiInput. rewrite (port_truthy_own_absent _ _ Hg), Hi. simpl.
    split; [apply entries_set_absent, Hg|].
    set (mm := (port_id d, "midimessage"%string, OnMidiMessage)) in *.
    set (sc := (port_id d, "statechange"%string, OnStateChange)).
    assert (Hsc : listener_eqb mm sc = false) by (unfold mm, sc; simpl; now rewrite Nat.eqb_refl).
    assert (H1 : count_listener (addEventListener (listeners s) sc) mm = 0%nat).
    { unfold addEventListener. destruct (existsb (listener_eqb sc) (listeners s)); [exact Hc|].
      rewrite count_app, Hc. unfold count_listener. cbn [filter]. now rewrite Hsc. }
    unfold addEventListener at 1. rewrite (count_zero_existsb _ _ H1).
    rewrite count_app, H1. unfold count_listener. cbn [filter]. now rewrite listener_eqb_refl.
  - intros s d Hg Hi. rewrite (Hidem s d d eq_refl).
    unfold enableMidiInput. now rewrite (port_truthy_own_absent _ _ Hg), Hi.
  - intros s d Hg Hi. unfold disableMidiInput. now rewrite (port_truthy_own_absent _ _ Hg), Hi.
  - exact disable_inherited_unsubscribed.
Qed.

Lemma C7_device_registry_idempotent_witness :
  let d := mkPort 0 "keys" "input" in
  let c := mkPort 1 "constructor" "input" in
  JsObj.get String.eqb (midiPorts init) (name d) = None /\ inherited_key (name d) = false
  /\ JsObj.entries String.eqb (midiPorts (enableMidiInput (enableMidiInput init d) d)) (name d)
     = [(name d, d)]
  /\ count_listener (listeners (enableMidiInput (enableMidiInput init d) d))
       (port_id d, "midimessage"%string, OnMidiMessage) = 1%nat
  /\ disableMidiInput init d = init
  /\ JsObj.get String.eqb (midiPorts init) (name c) = None /\ inherited_key (name c) = true
  /\ enableMidiInput (enableMidiInput init c) c = init
  /\ disableMidiInput init c = init.
Proof.
  intros d c. destruct C7_device_registry_idempotent as (_ & H2 & H3 & H4 & H5).
  split; [reflexivity|]. split; [reflexivity|].
  destruct (H2 init d eq_refl eq_refl eq_refl) as [E C].
  split; [exact E|]. split; [exact C|]. split; [apply H4; reflexivity|].
  split; [reflexivity|]. split; [reflexivity|].
  split; [apply H3; reflexivity|]. apply H5; reflexivity.
Defined.

Lemma ln10_pos : (0 < ln 10)%R.
Proof. rewrite <- ln_1. apply ln_increasing; lra. Qed.

(** C8: [midiVelocityToGain v] is [ln(10^v) / 292.4283068102438] (for a
    data byte [v >= 0], [10^v] the integer power), that is
    [v * ln 10 / 292.4283068102438], and it is strictly increasing on
    [1, 127].  Arithmetic is that of the reals. *)
Theorem C8_velocity_gain_monotone :
  (forall v, 0 <= v -> midiVelocityToGain v = (ln (10 ^ Z.to_nat v) / 292.4283068102438)%R)
  /\ (forall v, midiVelocityToGain v = (IZR v * ln 10 / 292.4283068102438)%R)
  /\ (forall v w, 1 <= v -> v < w -> w <= 127 -> (midiVelocityToGain v < midiVelocityToGain w)%R).
Proof.
  assert (Hlin : forall v, midiVelocityToGain v = (IZR v * ln 10 / 292.4283068102438)%R).
  { intro v. unfold midiVelocityToGain, Rpower. now rewrite ln_exp. }
  split; [|split; [exact Hlin|]].
  - intros v Hv. unfold midiVelocityToGain. f_equal. f_equal.
    rewrite <- (Z2Nat.id v Hv) at 1. rewrite <- INR_IZR_INZ.
    apply Rpower_pow. lra.
  - intros v w H1 H2 H3. rewrite !Hlin. unfold Rdiv.
    apply Rmult_lt_compat_r; [apply Rinv_0_lt_compat; lra|].
    apply Rmult_lt_compat_r; [apply ln10_pos|].
    apply IZR_lt. exact H2.
Qed.

Lemma C8_velocity_gain_monotone_witness :
  midiVelocityToGain 2 = (ln (10 ^ 2) / 292.4283068102438)%R
  /\ (midiVelocityToGain 1 < midiVelocityToGain 127)%R.
Proof.
  destruct C8_velocity_gain_monotone as (H1 & _ & H3).
  split; [apply (H1 2); lia | apply (H3 1 127); lia].
Defined.

(** C9: a NoteOn with velocity 0 while Running is handled by [playNote]
    like any NoteOn, not as a NoteOff: a square oscillator for the note is
    created, registered under the note and started, behind its own gain
    node whose gain is [midiVelocityToGain 0], which is 0. *)
Theorem C9_zero_velocity_note_on :
  forall evs n sb,
    let s := run init evs in
    audioContext s <> None -> isNoteOn sb = true ->
    onMidiMessage s sb n 0 = playNote s n 0
    /\ let s' := outcome_state (onMidiMessage s sb n 0) in
       exists osc gain,
         JsObj.get Z.eqb (pressedKeys s') n = Some osc
         /\ node_at (engine s') osc = Some (OscNode "square" (midiNoteToFreq n))
         /\ node_at (engine s') gain = Some (GainNode (midiVelocityToGain 0))
         /\ In (osc, gain) (edges (engine s'))
         /\ commands (engine s') = commands (engine s) ++ [StartCmd osc]
         /\ midiVelocityToGain 0 = 0%R.
Proof.
  intros evs n sb s Hc Hon.
  pose proof (Inv_reachable evs) as (_ & H2 & _ & _ & H5). fold s in H2, H5.
  destruct (audioContext s) as [c|] eqn:Ec; [|congruence].
  destruct (masterGainNode s) as [m|] eqn:Em; [|exfalso; apply H5; [discriminate|reflexivity]].
  rewrite onMidiMessage_noteOn by exact Hon. split; [reflexivity|].
  destruct (playNote_running s n 0 c m Ec Em) as (e & Hp & N & C & Ed & W).
  destruct (W H2) as (_ & Osc & G & _).
  rewrite Hp. simpl.
  exists (next_node (engine s)), (S (next_node (engine s))).
  split; [apply (JsObjFacts.get_set_same _ _ _ Z_eqb_spec')|].
  split; [exact Osc|]. split; [exact G|]. split; [exact Ed|]. split; [exact C|].
  unfold midiVelocityToGain. rewrite Rpower_O by lra. rewrite ln_1. lra.
Qed.

Lemma C9_zero_velocity_note_on_witness :
  let s := run init [StartClick true] in
  audioContext s <> None /\ isNoteOn 144 = true
  /\ onMidiMessage s 144 60 0 = playNote s 60 0.
Proof.
  intro s. split; [discriminate|]. split; [reflexivity|].
  apply (C9_zero_velocity_note_on [StartClick true] 60 144); [discriminate | reflexivity].
Defined.

(** C10, as the code runs: after the start click the master gain node is
    at 0.5 and wired master gain -> filter -> destination, but the
    filter keeps the Web Audio defaults, 350 Hz and Q 1: [createFilter]
    assigns [filter.frequency] and [filter.Q] themselves, which are
    read-only, instead of their [.value].  The [createFilter] of the
    class-based rewrite, run on the same store, yields 1000 Hz and
    Q 8. *)
Theorem C10_master_filter_at_start :
  forall evs,
    let s := run init evs in
    let s' := step s (StartClick true) in
    exists d,
      audioContext s' = Some d
      /\ masterGainNode s' = Some (S d) /\ masterFilter s' = Some (S (S d))
      /\ node_at (engine s') (S d) = Some (GainNode 0.5)
      /\ node_at (engine s') (S (S d)) = Some (BiquadNode "lowpass" 350 1)
      /\ In (S d, S (S d)) (edges (engine s')) /\ In (S (S d), d) (edges (engine s'))
      /\ node_at (fst (createFilter_class (engine s))) (snd (createFilter_class (engine s)))
         = Some (BiquadNode "lowpass" 1000 8).
Proof.
  intros evs s s'.
  pose proof (Inv_reachable evs) as (_ & H2 & _ & _ & _). fold s in H2.
  destruct (createAudio_spec s) as (e & Ha & _ & _ & Ed & W).
  destruct (W H2) as (_ & _ & G & F).
  unfold s', step. rewrite Ha. simpl.
  exists (next_node (engine s)).
  split; [reflexivity|]. split; [reflexivity|]. split; [reflexivity|].
  split; [exact G|]. split; [exact F|].
  rewrite Ed. split; [apply in_or_app; right; left; reflexivity|].
  split; [apply in_or_app; right; right; left; reflexivity|].
  set (e0 := engine s) in *. unfold createFilter_class. simpl.
  set (e1 := mkEngine _ _ _ _).
  pose proof (node_at_alloc e0 (BiquadNode "lowpass" 350 1) H2) as A. simpl in A. fold e1 in A.
  assert (T : node_at (set_type e1 (next_node e0) "lowpass") (next_node e0)
              = Some (BiquadNode "lowpass" 350 1)).
  { unfold set_type. rewrite A. apply node_at_update_same. }
  assert (Fq : node_at (set_frequency_value (set_type e1 (next_node e0) "lowpass") (next_node e0) 1000)
                 (next_node e0) = Some (BiquadNode "lowpass" 1000 1)).
  { unfold set_frequency_value at 1. rewrite T. apply node_at_update_same. }
  unfold set_q_value. rewrite Fq. apply node_at_update_same.
Qed.
End Claims.

(** * Further properties of the code *)
Module Extras.
Import EngineFacts HandlerFacts Reachable Dispatch.

(** The [else if] chain of the rewrites handles every message exactly as
    the four sequential [if]s of src/midiSynth.js. *)
Theorem onMidiMessage_elseif_same :
  forall s sb d1 d2, onMidiMessage_elseif s sb d1 d2 = onMidiMessage s sb d1 d2.
Proof.
  intros s sb d1 d2. rewrite onMidiMessage_decode. unfold onMidiMessage_elseif, decode.
  destruct (isNoteOn sb); [reflexivity|].
  destruct (isNoteOff sb); [reflexivity|].
  destruct (sb =? 176); [reflexivity|].
  destruct (sb =? 224); reflexivity.
Qed.

Lemma existsb_app_true {A} (f : A -> bool) l x :
  f x = true -> existsb f (l ++ [x]) = true.
Proof.
  intro H. rewrite existsb_app. simpl. rewrite H. apply orb_true_r.
Qed.

Lemma addEventListener_twice ls l : addEventListener (addEventListener ls l) l = addEventListener ls l.
Proof.
  unfold addEventListener at 2 3.
  destruct (existsb (listener_eqb l) ls) eqn:E.
  - unfold addEventListener. now rewrite E.
  - unfold addEventListener. rewrite existsb_app_true; [reflexivity|].
    apply Claims.listener_eqb_refl.
Qed.

Lemma addEventListener_comm_absent ls l1 l2 :
  existsb (listener_eqb l1) (addEventListener ls l2) = existsb (listener_eqb l1) ls || listener_eqb l1 l2.
Proof.
  unfold addEventListener. destruct (existsb (listener_eqb l2) ls) eqn:E.
  - destruct (listener_eqb l1 l2) eqn:E12; [|now rewrite orb_false_r].
    rewrite orb_true_r. destruct l1 as [[t1 y1] h1], l2 as [[t2 y2] h2].
    simpl in E12. apply andb_true_iff in E12 as [E12 Eh].
    apply andb_true_iff in E12 as [Et Ey].
    apply Nat.eqb_eq in Et. apply String.eqb_eq in Ey. subst t2 y2.
    destruct h1, h2; try discriminate; exact E.
  - rewrite existsb_app. simpl. now rewrite orb_false_r.
Qed.

(** In the unguarded [enableMidiInput] of the third rewrite a repeated
    call adds no second listener, because the DOM ignores a listener that
    is already registered: two calls leave the state of one. *)
Theorem enableMidiInput_unguarded_twice :
  forall s d, enableMidiInput_unguarded (enableMidiInput_unguarded s d) d = enableMidiInput_unguarded s d.
Proof.
  intros s d. unfold enableMidiInput_unguarded, with_ports. simpl. f_equal.
  set (sc := (port_id d, "statechange"%string, OnStateChange)).
  set (mm := (port_id d, "midimessage"%string, OnMidiMessage)).
  set (ls := addEventListener (addEventListener (listeners s) sc) mm).
  assert (Hsc : existsb (listener_eqb sc) ls = true).
  { unfold ls. rewrite addEventListener_comm_absent.
    rewrite addEventListener_comm_absent, Claims.listener_eqb_refl, orb_true_r. reflexivity. }
  unfold addEventListener at 2. rewrite Hsc. apply addEventListener_twice.
Qed.

(** [midiNoteToFreq] on the notes a MIDI data byte can carry, [0..127]:
    every frequency is positive and a higher note gives a strictly higher
    frequency.  Arithmetic is that of the reals; consecutive notes differ
    by the factor [2^(1/12)], far beyond the rounding of
    [Math.pow(2, (note - 69) / 12) * 440] in doubles on this range. *)
Theorem midiNoteToFreq_props :
  forall n m, 0 <= n -> n < m -> m <= 127 ->
    (0 < midiNoteToFreq n)%R /\ (midiNoteToFreq n < midiNoteToFreq m)%R.
Proof.
  intros n m _ H _. unfold midiNoteToFreq. split.
  - apply Rmult_lt_0_compat; [apply exp_pos | lra].
  - apply Rmult_lt_compat_r; [lra|].
    apply Rpower_lt; [lra|]. apply IZR_lt in H. lra.
Qed.

Lemma midiNoteToFreq_props_witness :
  0 <= 60 /\ 60 < 61 /\ 61 <= 127
  /\ (0 < midiNoteToFreq 60)%R /\ (midiNoteToFreq 60 < midiNoteToFreq 61)%R.
Proof.
  split; [lia|]. split; [lia|]. split; [lia|].
  apply midiNoteToFreq_props; lia.
Defined.

(** A second NoteOff for the same note is a no-op: after a NoteOff removed
    (or did not find) the note, another NoteOff on it changes nothing and
    issues no second stop. *)
Theorem noteOff_twice_noop :
  forall s sb sb' n d d',
    isNoteOff sb = true -> isNoteOff sb' = true ->
    let s1 := outcome_state (onMidiMessage s sb n d) in
    onMidiMessage s1 sb' n d' = Done s1.
Proof.
  intros s sb sb' n d d' H H' s1. unfold s1.
  rewrite !onMidiMessage_noteOff by assumption.
  unfold stopNote.
  destruct (JsObj.get Z.eqb (pressedKeys s) n) eqn:E; simpl.
  - now rewrite JsObjFacts.get_delete_same.
  - now rewrite E.
Qed.

Lemma noteOff_twice_noop_witness :
  let s := run init [StartClick true; MidiMessage 144 60 90] in
  isNoteOff 128 = true /\ isNoteOff 130 = true
  /\ onMidiMessage (outcome_state (onMidiMessage s 128 60 0)) 130 60 5
     = Done (outcome_state (onMidiMessage s 128 60 0)).
Proof.
  intro s. split; [reflexivity|]. split; [reflexivity|].
  apply (noteOff_twice_noop s 128 130 60 0 5); reflexivity.
Defined.

Lemma delete_set_absent {V} (o : JsObj.t string V) k v :
  JsObj.get String.eqb o k = None -> JsObj.delete String.eqb (JsObj.set String.eqb o k v) k = o.
Proof.
  induction o as [|[k0 v0] o IH]; simpl; intro Hg.
  - now rewrite String.eqb_refl.
  - destruct (String.eqb k k0) eqn:E; [discriminate|]. simpl. rewrite E. now rewrite IH.
Qed.

Lemma remove_app ls1 ls2 l :
  removeEventListener (ls1 ++ ls2) l = removeEventListener ls1 l ++ removeEventListener ls2 l.
Proof. apply filter_app. Qed.

(** A connect notification followed by a disconnect notification for an
    input port that was not enabled, and had none of the script's
    listeners, gives back the session as it was: [midiPorts] and the
    listeners are restored.  For a name inherited from [Object.prototype]
    the connect is skipped and the disconnect's removals and [delete] find
    nothing. *)
Theorem connect_disconnect_roundtrip :
  forall s d,
    type d = "input"%string ->
    JsObj.get String.eqb (midiPorts s) (name d) = None ->
    count_listener (listeners s) (port_id d, "statechange"%string, OnStateChange) = 0%nat ->
    count_listener (listeners s) (port_id d, "midimessage"%string, OnMidiMessage) = 0%nat ->
    onStateChange (onStateChange s d "connected") d "disconnected" = s.
Proof.
  intros s d Ht Hg Hsc Hmm.
  unfold onStateChange. rewrite Ht. simpl.
  destruct (inherited_key (name d)) eqn:Hi.
  { unfold enableMidiInput. rewrite (Claims.port_truthy_own_absent _ _ Hg), Hi.
    apply Claims.disable_inherited_unsubscribed; assumption. }
  unfold enableMidiInput. rewrite (Claims.port_truthy_own_absent _ _ Hg), Hi.
  unfold disableMidiInput. simpl.
  rewrite Claims.port_truthy_set.
  simpl. rewrite delete_set_absent by exact Hg.
  set (sc := (port_id d, "statechange"%string, OnStateChange)) in *.
  set (mm := (port_id d, "midimessage"%string, OnMidiMessage)) in *.
  assert (Hms : listener_eqb mm sc = false) by (unfold mm, sc; simpl; now rewrite Nat.eqb_refl).
  assert (Hsm : listener_eqb sc mm = false) by (unfold mm, sc; simpl; now rewrite Nat.eqb_refl).
  assert (A1 : addEventListener (listeners s) sc = listeners s ++ [sc]).
  { unfold addEventListener. now rewrite (Claims.count_zero_existsb _ _ Hsc). }
  assert (H1 : count_listener (listeners s ++ [sc]) mm = 0%nat).
  { rewrite Claims.count_app, Hmm. unfold count_listener. cbn [filter]. now rewrite Hms. }
  assert (A2 : addEventListener (listeners s ++ [sc]) mm = (listeners s ++ [sc]) ++ [mm]).
  { unfold addEventListener. now rewrite (Claims.count_zero_existsb _ _ H1). }
  rewrite A1, A2.
  rewrite !remove_app, (Claims.remove_absent _ _ Hsc), (Claims.remove_absent _ _ Hmm).
  unfold removeEventListener, sc, mm. simpl. repeat (rewrite Nat.eqb_refl; simpl).
  rewrite !app_nil_r. destruct s; reflexivity.
Qed.

Lemma connect_disconnect_roundtrip_witness :
  let d := mkPort 0 "keys" "input" in
  let s := run init [SetupMidi [mkPort 1 "pads" "input"]] in
  type d = "input"%string
  /\ JsObj.get String.eqb (midiPorts s) (name d) = None
  /\ count_listener (listeners s) (port_id d, "statechange"%string, OnStateChange) = 0%nat
  /\ count_listener (listeners s) (port_id d, "midimessage"%string, OnMidiMessage) = 0%nat
  /\ onStateChange (onStateChange s d "connected") d "disconnected" = s.
Proof.
  intros d s. do 4 (split; [reflexivity|]).
  apply connect_disconnect_roundtrip; reflexivity.
Defined.

Lemma enable_keeps_registered s p k :
  JsObj.get String.eqb (midiPorts s) k <> None ->
  JsObj.get String.eqb (midiPorts (enableMidiInput s p)) k <> None.
Proof.
  intro H. unfold enableMidiInput.
  destruct (port_truthy (midiPorts s) (name p)); [exact H|]. simpl.
  destruct (string_dec k (name p)) as [->|Hne].
  - now rewrite (JsObjFacts.get_set_same _ _ _ String_eqb_spec').
  - now rewrite (JsObjFacts.get_set_other _ _ _ String_eqb_spec') by exact Hne.
Qed.

Lemma enable_registers s p :
  inherited_key (name p) = false ->
  JsObj.get String.eqb (midiPorts (enableMidiInput s p)) (name p) <> None.
Proof.
  intro Hi. unfold enableMidiInput.
  destruct (JsObj.get String.eqb (midiPorts s) (name p)) eqn:E.
  - unfold port_truthy. rewrite E. now rewrite E.
  - rewrite (Claims.port_truthy_own_absent _ _ E), Hi. simpl.
    now rewrite (JsObjFacts.get_set_same _ _ _ String_eqb_spec').
Qed.

Lemma fold_enable_keeps inputs s k :
  JsObj.get String.eqb (midiPorts s) k <> None ->
  JsObj.get String.eqb (midiPorts (fold_left enableMidiInput inputs s)) k <> None.
Proof.
  revert s. induction inputs as [|p inputs IH]; simpl; intros s H; [exact H|].
  apply IH, enable_keeps_registered, H.
Qed.

(** An enable never creates an own entry for a name inherited from
    [Object.prototype]. *)
Lemma enable_keeps_inherited_absent s p k :
  inherited_key k = true ->
  JsObj.get String.eqb (midiPorts s) k = None ->
  JsObj.get String.eqb (midiPorts (enableMidiInput s p)) k = None.
Proof.
  intros Hi Hg. unfold enableMidiInput.
  destruct (port_truthy (midiPorts s) (name p)) eqn:E; [exact Hg|]. simpl.
  destruct (string_dec k (name p)) as [->|Hne].
  - rewrite (Claims.port_truthy_own_absent _ _ Hg), Hi in E. discriminate.
  - now rewrite (JsObjFacts.get_set_other _ _ _ String_eqb_spec') by exact Hne.
Qed.

(** [setupMidi] ([access.inputs.forEach(enableMidiInput)]) leaves the name
    of every reported input registered in [midiPorts], unless the name is
    a property of [Object.prototype] (such as ["constructor"]): such an
    input is never registered. *)
Theorem setupMidi_registers_all :
  forall s inputs p, In p inputs ->
    (inherited_key (name p) = false ->
       JsObj.get String.eqb (midiPorts (step s (SetupMidi inputs))) (name p) <> None)
    /\ (inherited_key (name p) = true ->
       JsObj.get String.eqb (midiPorts s) (name p) = None ->
       JsObj.get String.eqb (midiPorts (step s (SetupMidi inputs))) (name p) = None).
Proof.
  intros s inputs p Hin. simpl. split.
  - intro Hi. revert s.
    induction inputs as [|q inputs IH]; simpl; [contradiction|]. intro s.
    destruct Hin as [->|Hin].
    + apply fold_enable_keeps, enable_registers, Hi.
    + apply IH, Hin.
  - intros Hi. clear Hin. revert s.
    induction inputs as [|q inputs IH]; simpl; intros s Hg; [exact Hg|].
    apply IH, enable_keeps_inherited_absent; assumption.
Qed.

Lemma setupMidi_registers_all_witness :
  let p := mkPort 2 "pads" "input" in
  let c := mkPort 3 "constructor" "input" in
  let inputs := [mkPort 1 "keys" "input"; p; c] in
  In p inputs /\ inherited_key (name p) = false
  /\ JsObj.get String.eqb (midiPorts (step init (SetupMidi inputs))) (name p) <> None
  /\ In c inputs /\ inherited_key (name c) = true
  /\ JsObj.get String.eqb (midiPorts init) (name c) = None
  /\ JsObj.get String.eqb (midiPorts (step init (SetupMidi inputs))) (name c) = None.
Proof.
  intros p c inputs.
  assert (Hp : In p inputs) by (right; left; reflexivity).
  assert (Hc : In c inputs) by (right; right; left; reflexivity).
  split; [exact Hp|]. split; [reflexivity|].
  split; [apply (proj1 (setupMidi_registers_all init inputs p Hp)); reflexivity|].
  split; [exact Hc|]. split; [reflexivity|]. split; [reflexivity|].
  apply (proj2 (setupMidi_registers_all init inputs c Hc)); reflexivity.
Defined.

(** No MIDI message makes a handler throw in a session the page can reach:
    in particular [createGain] always finds the master gain node. *)
Theorem onMidiMessage_never_throws :
  forall evs sb d1 d2, exists s', onMidiMessage (run init evs) sb d1 d2 = Done s'.
Proof.
  intros evs sb d1 d2.
  pose proof (Inv_reachable evs) as (_ & _ & _ & _ & H5).
  set (s := run init evs) in *.
  rewrite onMidiMessage_decode.
  destruct (decode sb d1 d2) as [n v|n|c v|v|]; simpl.
  - destruct (audioContext s) as [c|] eqn:Ec.
    + destruct (masterGainNode s) as [m|] eqn:Em; [|exfalso; apply H5; [discriminate|reflexivity]].
      destruct (playNote_running s n v c m Ec Em) as (e & -> & _). eexists; reflexivity.
    + unfold playNote. rewrite Ec. eexists; reflexivity.
  - unfold stopNote. destruct (JsObj.get Z.eqb (pressedKeys s) n); eexists; reflexivity.
  - destruct (c =? 1); [eexists; reflexivity|]. destruct (c =? 7); [|eexists; reflexivity].
    unfold setMasterGain. destruct (masterGainNode s); eexists; reflexivity.
  - unfold setMasterFilterFreq. destruct (masterFilter s); eexists; reflexivity.
  - eexists; reflexivity.
Qed.

Lemma node_at_lt e id x : wf e -> node_at e id = Some x -> (id < next_node e)%nat.
Proof.
  intros Hwf H. apply Hwf. eapply (JsObjFacts.get_in _ _ _ nat_eqb_spec'). exact H.
Qed.

(** The master nodes keep their kinds: the master gain is a gain node, the
    master filter a biquad filter, and both exist once Running. *)
Definition Masters (s : Session) : Prop :=
  (forall m, masterGainNode s = Some m -> exists g, node_at (engine s) m = Some (GainNode g))
  /\ (forall f, masterFilter s = Some f ->
        exists ty fr q, node_at (engine s) f = Some (BiquadNode ty fr q))
  /\ (audioContext s <> None -> masterFilter s <> None).

Lemma Masters_init : Masters init.
Proof. unfold Masters. simpl. split; [|split]; try discriminate. tauto. Qed.

Lemma Masters_ports s p ls : Masters s -> Masters (with_ports s p ls).
Proof. intro H. exact H. Qed.

Lemma Masters_enable s p : Masters s -> Masters (enableMidiInput s p).
Proof.
  intro H. unfold enableMidiInput.
  destruct (port_truthy (midiPorts s) (name p)); [exact H | apply Masters_ports, H].
Qed.

Lemma Masters_disable s p : Masters s -> Masters (disableMidiInput s p).
Proof.
  intro H. unfold disableMidiInput.
  destruct (port_truthy (midiPorts s) (name p)); [apply Masters_ports, H | exact H].
Qed.

Lemma Masters_midi s sb d1 d2 :
  Inv s -> Masters s -> Masters (outcome_state (onMidiMessage s sb d1 d2)).
Proof.
  intros Hi Hm. pose proof Hi as (_ & H2 & _ & _ & H5).
  pose proof Hm as (Mg & Mf & Mr).
  rewrite onMidiMessage_decode.
  destruct (decode sb d1 d2) as [n v|n|c v|v|]; simpl.
  - destruct (audioContext s) as [c|] eqn:Ec.
    + destruct (masterGainNode s) as [m|] eqn:Em; [|exfalso; apply H5; [discriminate|reflexivity]].
      destruct (playNote_running s n v c m Ec Em) as (e & -> & _ & _ & _ & W).
      destruct (W H2) as (_ & _ & _ & Oth).
      unfold Masters; simpl. split; [|split].
      * intros m' Hm'. rewrite Em in Hm'. destruct (Mg m' Hm') as (g & Hg).
        pose proof (node_at_lt _ _ _ H2 Hg). exists g. rewrite Oth by lia. exact Hg.
      * intros f Hf. destruct (Mf f Hf) as (ty & fr & q & Hq).
        pose proof (node_at_lt _ _ _ H2 Hq). exists ty, fr, q. rewrite Oth by lia. exact Hq.
      * simpl. rewrite Ec. exact Mr.
    + unfold playNote. rewrite Ec. exact Hm.
  - unfold stopNote. destruct (JsObj.get Z.eqb (pressedKeys s) n); simpl;
      exact Hm.
  - destruct (c =? 1); [simpl; exact Hm|].
    destruct (c =? 7); [|simpl; exact Hm].
    unfold setMasterGain. destruct (masterGainNode s) as [m|] eqn:Em;
      [|simpl; exact Hm].
    destruct (Mg m eq_refl) as (g & Hg).
    unfold Masters; simpl. split; [|split; [|exact Mr]].
    + intros m' Hm'. rewrite Em in Hm'. injection Hm' as <-. eexists.
      unfold set_gain_value. rewrite Hg. apply node_at_update_same.
    + intros f Hf. destruct (Mf f Hf) as (ty & fr & q & Hq).
      exists ty, fr, q. rewrite node_at_set_gain_value_other; [exact Hq|].
      intros ->. congruence.
  - unfold setMasterFilterFreq. destruct (masterFilter s) as [f|] eqn:Ef;
      [|simpl; exact Hm].
    destruct (Mf f eq_refl) as (ty & fr & q & Hq).
    unfold Masters; simpl. split; [|split; [|rewrite Ef; exact Mr]].
    + intros m Hm'. destruct (Mg m Hm') as (g & Hg). exists g.
      rewrite node_at_set_frequency_value_other; [exact Hg|]. intros ->. congruence.
    + intros f' Hf'. rewrite Ef in Hf'. injection Hf' as <-. exists ty, (IZR v / 64 * 1000)%R, q.
      unfold set_frequency_value. rewrite Hq. apply node_at_update_same.
  - exact Hm.
Qed.

Lemma Masters_step s ev : Inv s -> Masters s -> Masters (step s ev).
Proof.
  intros Hi Hm. destruct ev as [b|inputs|port state|sb d1 d2]; simpl.
  - destruct b; [|exact Hm].
    destruct (createAudio_spec s) as (e & -> & _ & _ & _ & W).
    destruct Hi as (_ & H2 & _). destruct (W H2) as (_ & _ & G & F).
    unfold Masters; simpl. split; [|split; [|discriminate]].
    + intros m Hm'. injection Hm' as <-. eexists. exact G.
    + intros f Hf. injection Hf as <-. do 3 eexists. exact F.
  - revert s Hi Hm. induction inputs as [|p inputs IH]; simpl; intros s Hi Hm; [exact Hm|].
    apply IH; [apply Inv_enableMidiInput, Hi | apply Masters_enable, Hm].
  - unfold onStateChange.
    destruct (String.eqb (type port) "input"); [|exact Hm].
    destruct (String.eqb state "connected"); [apply Masters_enable, Hm|].
    destruct (String.eqb state "disconnected"); [apply Masters_disable|]; exact Hm.
  - apply Masters_midi; assumption.
Qed.

Lemma Masters_reachable evs : Masters (run init evs).
Proof.
  unfold run.
  assert (G : forall s, Inv s -> Masters s -> Masters (fold_left step evs s)).
  { induction evs as [|ev evs IH]; simpl; intros s Hi Hm; [exact Hm|].
    apply IH; [apply Inv_step, Hi | apply Masters_step; assumption]. }
  apply G; [apply Inv_init | apply Masters_init].
Qed.

(** ControlChange 7 while Running sets the master gain node to
    [value / 127] and touches neither the held keys nor the command log;
    controllers other than 7 (such as 1, modulation) change nothing in any
    session. *)
Theorem controlChange_volume :
  (forall evs v,
     let s := run init evs in
     audioContext s <> None ->
     let s' := outcome_state (onMidiMessage s 176 7 v) in
     exists m, masterGainNode s' = Some m
       /\ node_at (engine s') m = Some (GainNode (IZR v / 127))
       /\ pressedKeys s' = pressedKeys s
       /\ commands (engine s') = commands (engine s))
  /\ (forall s c v, c <> 7 -> onMidiMessage s 176 c v = Done s).
Proof.
  split.
  - intros evs v s Hc s'.
    pose proof (Inv_reachable evs) as (_ & _ & _ & _ & H5).
    pose proof (Masters_reachable evs) as (Mg & _). fold s in H5, Mg.
    destruct (masterGainNode s) as [m|] eqn:Em; [|exfalso; apply H5; [exact Hc|reflexivity]].
    destruct (Mg m eq_refl) as (g & Hg).
    unfold s'. rewrite onMidiMessage_decode. simpl. unfold setMasterGain. rewrite Em. simpl.
    exists m. split; [exact Em|]. split.
    + unfold set_gain_value. rewrite Hg. apply node_at_update_same.
    + split; [reflexivity|]. apply set_gain_value_meta.
  - intros s c v Hc. rewrite onMidiMessage_decode. simpl.
    destruct (c =? 1); [reflexivity|]. apply Z.eqb_neq in Hc. now rewrite Hc.
Qed.

Lemma controlChange_volume_witness :
  let s := run init [StartClick true] in
  audioContext s <> None
  /\ (exists m, masterGainNode (outcome_state (onMidiMessage s 176 7 64)) = Some m
       /\ node_at (engine (outcome_state (onMidiMessage s 176 7 64))) m = Some (GainNode (IZR 64 / 127))
       /\ pressedKeys (outcome_state (onMidiMessage s 176 7 64)) = pressedKeys s
       /\ commands (engine (outcome_state (onMidiMessage s 176 7 64))) = commands (engine s))
  /\ onMidiMessage s 176 1 99 = Done s.
Proof.
  intro s. split; [discriminate|]. split.
  - apply (proj1 controlChange_volume [StartClick true] 64). discriminate.
  - apply (proj2 controlChange_volume). lia.
Defined.

(** PitchBend while Running sets the master filter's frequency to
    [(data2 / 64) * 1000], keeping its type and Q, and touches neither the
    held keys nor the command log. *)
Theorem pitchBend_cutoff :
  forall evs d1 d2,
    let s := run init evs in
    audioContext s <> None ->
    let s' := outcome_state (onMidiMessage s 224 d1 d2) in
    exists f ty fr q,
      masterFilter s = Some f /\ masterFilter s' = Some f
      /\ node_at (engine s) f = Some (BiquadNode ty fr q)
      /\ node_at (engine s') f = Some (BiquadNode ty (IZR d2 / 64 * 1000) q)
      /\ pressedKeys s' = pressedKeys s
      /\ commands (engine s') = commands (engine s).
Proof.
  intros evs d1 d2 s Hc s'.
  pose proof (Masters_reachable evs) as (_ & Mf & Mr). fold s in Mf, Mr.
  destruct (masterFilter s) as [f|] eqn:Ef; [|exfalso; apply Mr; [exact Hc|reflexivity]].
  destruct (Mf f eq_refl) as (ty & fr & q & Hq).
  unfold s'. rewrite onMidiMessage_decode. simpl. unfold setMasterFilterFreq. rewrite Ef. simpl.
  exists f, ty, fr, q. split; [reflexivity|]. split; [exact Ef|]. split; [exact Hq|]. split.
  - unfold set_frequency_value. rewrite Hq. apply node_at_update_same.
  - split; [reflexivity|]. apply set_frequency_value_meta.
Qed.

Lemma pitchBend_cutoff_witness :
  let s := run init [StartClick true] in
  audioContext s <> None
  /\ exists f ty fr q,
      masterFilter s = Some f /\ masterFilter (outcome_state (onMidiMessage s 224 0 64)) = Some f
      /\ node_at (engine s) f = Some (BiquadNode ty fr q)
      /\ node_at (engine (outcome_state (onMidiMessage s 224 0 64))) f
         = Some (BiquadNode ty (IZR 64 / 64 * 1000) q)
      /\ pressedKeys (outcome_state (onMidiMessage s 224 0 64)) = pressedKeys s
      /\ commands (engine (outcome_state (onMidiMessage s 224 0 64))) = commands (engine s).
Proof.
  intro s. split; [discriminate|].
  apply (pitchBend_cutoff [StartClick true] 0 64). discriminate.
Defined.
Lemma playNote_edges s n v c m s' :
  audioContext s = Some c -> masterGainNode s = Some m -> playNote s n v = Done s' ->
  edges (engine s') = edges (engine s)
    ++ [(S (next_node (engine s)), m); (next_node (engine s), S (next_node (engine s)))].
Proof.
  intros Hc Hm. unfold playNote. rewrite Hc.
  destruct (createOscillator (engine s) (midiNoteToFreq n)) as [e1 o1] eqn:E1.
  destruct (createOscillator_spec _ _ _ _ E1) as (Ho & N1 & Ed1 & _ & _).
  assert (Hm1 : masterGainNode (with_engine s e1) = Some m) by exact Hm.
  destruct (createGain_spec (with_engine s e1) (midiVelocityToGain v) m Hm1)
    as (e2 & E2 & N2 & Ed2 & _ & _).
  rewrite E2. simpl in N2, Ed2 |- *. subst o1. rewrite N1 in Ed2.
  intro H. injection H as <-. simpl. rewrite Ed2, Ed1, N1, <- app_assoc. reflexivity.
Qed.

(** A NoteOn while Running builds one voice: a square oscillator at the
    note's frequency feeding a fresh gain node at the velocity's gain, which
    feeds the master gain; the note is mapped to the oscillator, which is
    started. *)
Theorem noteOn_voice_routing :
  forall evs sb d1 d2,
    let s := run init evs in
    audioContext s <> None -> isNoteOn sb = true ->
    let o := next_node (engine s) in
    exists m s', masterGainNode s = Some m /\ onMidiMessage s sb d1 d2 = Done s'
      /\ edges (engine s') = edges (engine s) ++ [(S o, m); (o, S o)]
      /\ node_at (engine s') o = Some (OscNode "square" (midiNoteToFreq d1))
      /\ node_at (engine s') (S o) = Some (GainNode (midiVelocityToGain d2))
      /\ JsObj.get Z.eqb (pressedKeys s') d1 = Some o
      /\ commands (engine s') = commands (engine s) ++ [StartCmd o].
Proof.
  intros evs sb d1 d2 s Hc Hon o.
  pose proof (Inv_reachable evs) as (_ & H2 & _ & _ & H5). fold s in H2, H5.
  destruct (audioContext s) as [c|] eqn:Ec; [|congruence].
  destruct (masterGainNode s) as [m|] eqn:Em; [|exfalso; apply H5; [discriminate|reflexivity]].
  destruct (playNote_running s d1 d2 c m Ec Em) as (e & Hp & _ & Cm & _ & W).
  destruct (W H2) as (_ & Osc & G & _).
  pose proof (playNote_edges s d1 d2 c m _ Ec Em Hp) as Ed.
  exists m. eexists. split; [reflexivity|]. split; [rewrite onMidiMessage_noteOn by exact Hon; exact Hp|].
  simpl in Ed |- *. split; [exact Ed|]. split; [exact Osc|]. split; [exact G|].
  split; [apply (JsObjFacts.get_set_same _ _ _ Z_eqb_spec')|exact Cm].
Qed.

Lemma noteOn_voice_routing_witness :
  let s := run init [StartClick true] in
  audioContext s <> None /\ isNoteOn 144 = true
  /\ exists m s', masterGainNode s = Some m /\ onMidiMessage s 144 60 100 = Done s'
      /\ edges (engine s') = edges (engine s)
           ++ [(S (next_node (engine s)), m); (next_node (engine s), S (next_node (engine s)))]
      /\ node_at (engine s') (next_node (engine s)) = Some (OscNode "square" (midiNoteToFreq 60))
      /\ node_at (engine s') (S (next_node (engine s))) = Some (GainNode (midiVelocityToGain 100))
      /\ JsObj.get Z.eqb (pressedKeys s') 60 = Some (next_node (engine s))
      /\ commands (engine s') = commands (engine s) ++ [StartCmd (next_node (engine s))].
Proof.
  intro s. split; [discriminate|]. split; [reflexivity|].
  apply (noteOn_voice_routing [StartClick true] 144 60 100); [discriminate|reflexivity].
Defined.
Lemma createAudio_old s id :
  wf (engine s) -> (id < next_node (engine s))%nat ->
  node_at (engine (createAudio true s)) id = node_at (engine s) id.
Proof.
  intros Hwf Hid. set (d := next_node (engine s)) in Hid.
  unfold createAudio. simpl negb. cbv iota.
  set (e0 := fst (alloc (engine s) DestinationNode)).
  change (alloc (engine s) DestinationNode) with (e0, d). cbv iota.
  set (e1 := fst (alloc e0 (GainNode 1))).
  change (alloc e0 (GainNode 1)) with (e1, S d). cbv iota.
  destruct (createFilter (set_gain_value e1 (S d) 0.5)) as [e2 f] eqn:Ef.
  destruct (createFilter_spec _ _ _ Ef) as (Hf & _ & _ & _ & W2).
  destruct (set_gain_value_meta e1 (S d) 0.5) as (N1 & _ & _).
  rewrite N1 in Hf. simpl in Hf. subst f.
  assert (W1 : wf e1) by apply (wf_alloc _ _ (wf_alloc _ _ Hwf)).
  destruct (W2 (wf_set_gain_value _ _ _ W1)) as (_ & _ & O2).
  change (node_at e2 id = node_at (engine s) id).
  rewrite O2 by lia. rewrite node_at_set_gain_value_other by lia.
  unfold e1. rewrite node_at_alloc_other by (unfold e0; simpl; lia).
  unfold e0. rewrite node_at_alloc_other by lia. reflexivity.
Qed.

(** Every held note is a square oscillator at the note's frequency whose
    start has been issued. *)
Definition Sounding (s : Session) : Prop :=
  forall k o, JsObj.get Z.eqb (pressedKeys s) k = Some o ->
    node_at (engine s) o = Some (OscNode "square" (midiNoteToFreq k))
    /\ In (StartCmd o) (commands (engine s)).

Lemma Sounding_midi s sb d1 d2 :
  Inv s -> Masters s -> Sounding s -> Sounding (outcome_state (onMidiMessage s sb d1 d2)).
Proof.
  intros Hi Hm Hs. pose proof Hi as (_ & H2 & H3 & _ & H5).
  pose proof Hm as (Mg & Mf & _).
  rewrite onMidiMessage_decode.
  destruct (decode sb d1 d2) as [n v|n|c v|v|]; simpl.
  - destruct (audioContext s) as [c|] eqn:Ec; [|unfold playNote; rewrite Ec; exact Hs].
    destruct (masterGainNode s) as [m|] eqn:Em; [|exfalso; apply H5; [discriminate|reflexivity]].
    destruct (playNote_running s n v c m Ec Em) as (e & -> & _ & Cm & _ & W).
    destruct (W H2) as (_ & Osc & _ & Oth).
    intros k o Hk. simpl in Hk |- *. rewrite Cm.
    destruct (Z.eq_dec k n) as [->|Hne].
    + rewrite (JsObjFacts.get_set_same _ _ _ Z_eqb_spec') in Hk. injection Hk as <-.
      split; [exact Osc|]. apply in_or_app. right. left. reflexivity.
    + rewrite (JsObjFacts.get_set_other _ _ _ Z_eqb_spec') in Hk by exact Hne.
      pose proof (H3 k o Hk). destruct (Hs k o Hk) as [N C].
      split; [rewrite Oth by lia; exact N|]. apply in_or_app. left. exact C.
  - unfold stopNote. destruct (JsObj.get Z.eqb (pressedKeys s) n) as [o0|] eqn:En; [|exact Hs].
    intros k o Hk. simpl in Hk |- *.
    destruct (Z.eq_dec k n) as [->|Hne].
    + rewrite JsObjFacts.get_delete_same in Hk. discriminate.
    + rewrite (JsObjFacts.get_delete_other _ _ _ Z_eqb_spec') in Hk by exact Hne.
      destruct (Hs k o Hk) as [N C]. split; [exact N|]. apply in_or_app. left. exact C.
  - destruct (c =? 1); [exact Hs|].
    destruct (c =? 7); [|exact Hs].
    unfold setMasterGain. destruct (masterGainNode s) as [m|] eqn:Em; [|exact Hs].
    destruct (Mg m eq_refl) as (g & Hg).
    intros k o Hk. simpl in Hk |- *. destruct (Hs k o Hk) as [N C].
    destruct (set_gain_value_meta (engine s) m (IZR v / 127)) as (_ & _ & ->).
    split; [|exact C]. rewrite node_at_set_gain_value_other; [exact N|]. intros ->. congruence.
  - unfold setMasterFilterFreq. destruct (masterFilter s) as [f|] eqn:Ef; [|exact Hs].
    destruct (Mf f eq_refl) as (ty & fr & q & Hq).
    intros k o Hk. simpl in Hk |- *. destruct (Hs k o Hk) as [N C].
    destruct (set_frequency_value_meta (engine s) f (IZR v / 64 * 1000)) as (_ & _ & ->).
    split; [|exact C]. rewrite node_at_set_frequency_value_other; [exact N|]. intros ->. congruence.
  - exact Hs.
Qed.

Lemma Sounding_enable s p : Sounding s -> Sounding (enableMidiInput s p).
Proof.
  intro H. unfold enableMidiInput.
  destruct (port_truthy (midiPorts s) (name p)); exact H.
Qed.

Lemma Sounding_disable s p : Sounding s -> Sounding (disableMidiInput s p).
Proof.
  intro H. unfold disableMidiInput.
  destruct (port_truthy (midiPorts s) (name p)); exact H.
Qed.

Lemma Sounding_step s ev : Inv s -> Masters s -> Sounding s -> Sounding (step s ev).
Proof.
  intros Hi Hm Hs. destruct ev as [b|inputs|port state|sb d1 d2]; simpl.
  - destruct b; [|exact Hs].
    pose proof Hi as (_ & H2 & H3 & _).
    intros k o Hk. destruct (createAudio_spec s) as (e & E & _ & C & _).
    assert (Hk' : JsObj.get Z.eqb (pressedKeys s) k = Some o) by (rewrite E in Hk; exact Hk).
    rewrite (createAudio_old s o H2 (H3 k o Hk')), E. simpl. rewrite C.
    exact (Hs k o Hk').
  - revert s Hi Hm Hs. induction inputs as [|p inputs IH]; simpl; intros s Hi Hm Hs; [exact Hs|].
    apply IH; [apply Inv_enableMidiInput, Hi | apply Masters_enable, Hm | apply Sounding_enable, Hs].
  - unfold onStateChange.
    destruct (String.eqb (type port) "input"); [|exact Hs].
    destruct (String.eqb state "connected"); [apply Sounding_enable, Hs|].
    destruct (String.eqb state "disconnected"); [apply Sounding_disable|]; exact Hs.
  - apply Sounding_midi; assumption.
Qed.

(** In every reachable session a held note [k] maps to a square oscillator
    sounding at [midiNoteToFreq k] whose start command has been issued. *)
Theorem held_notes_sounding :
  forall evs k o,
    JsObj.get Z.eqb (pressedKeys (run init evs)) k = Some o ->
    node_at (engine (run init evs)) o = Some (OscNode "square" (midiNoteToFreq k))
    /\ In (StartCmd o) (commands (engine (run init evs))).
Proof.
  intro evs. unfold run.
  assert (G : forall s, Inv s -> Masters s -> Sounding s -> Sounding (fold_left step evs s)).
  { induction evs as [|ev evs IH]; simpl; intros s Hi Hm Hs; [exact Hs|].
    apply IH; [apply Inv_step, Hi | apply Masters_step; assumption | apply Sounding_step; assumption]. }
  apply G; [apply Inv_init | apply Masters_init | intros k o Hk; discriminate].
Qed.

Lemma held_notes_sounding_witness :
  let evs := [StartClick true; MidiMessage 144 60 100; MidiMessage 176 7 30] in
  JsObj.get Z.eqb (pressedKeys (run init evs)) 60 = Some 3%nat
  /\ node_at (engine (run init evs)) 3 = Some (OscNode "square" (midiNoteToFreq 60))
  /\ In (StartCmd 3) (commands (engine (run init evs))).
Proof.
  intro evs. assert (H : JsObj.get Z.eqb (pressedKeys (run init evs)) 60 = Some 3%nat) by reflexivity.
  split; [exact H|]. exact (held_notes_sounding evs 60 3 H).
Defined.
End Extras.
